(** * serial_plotter: a shallow embedding of [tools/serial_plotter.py]

    The program has two classes.  [SerialReader] is a thread that reads
    lines from a serial port, converts them with [float(line.strip())] and
    puts the values (or the [SerialException] that ended it) on a
    [queue.Queue].  [SerialPlotter] is the Qt window: it owns the queue, the
    [_data]/[_time] buffers, the reader reference and the two buttons; a Qt
    timer drains the queue and a matplotlib animation recomputes the axes.

    Python floats are IEEE 754 binary64 numbers; they are modelled by the
    Standard Library's [spec_float] at precision 53 and [emax] 1024, whose
    operations round to nearest, ties to even, as the hardware does. *)

From Stdlib Require Import ZArith Floats.SpecFloat Strings.Byte.
From stdpp Require Import base option list strings.

Local Open Scope Z_scope.

(** ** Python values used by the program *)

Module Py.

(** [bytes] objects, as returned by [Serial.readline]. *)
Definition bytes := list byte.

(** [b"..."] literals with ASCII content. *)
Definition b (s : string) : bytes := String.list_byte_of_string s.

(** [float]: binary64. *)
Definition float := spec_float.

Definition prec : Z := 53.
Definition emax : Z := 1024.

Definition fadd : float -> float -> float := SFadd prec emax.
Definition fsub : float -> float -> float := SFsub prec emax.
Definition fmul : float -> float -> float := SFmul prec emax.
Definition flt : float -> float -> bool := SFltb.
Definition fle : float -> float -> bool := SFleb.
Definition feq : float -> float -> bool := SFeqb.

Definition is_nan (x : float) : bool :=
  match x with S754_nan => true | _ => false end.

(** [math.isfinite]: neither an infinity nor a NaN. *)
Definition is_finite (x : float) : bool :=
  match x with
  | S754_zero _ | S754_finite _ _ _ => true
  | S754_infinity _ | S754_nan => false
  end.

(** The float nearest to the decimal [(-1)^neg * m * 10^e10], as CPython's
    correctly rounded [_Py_dg_strtod] computes it: a value too large for a
    binary64 becomes an infinity (the caller, [PyOS_string_to_double], is
    given no overflow exception by [float()]), a value too small becomes a
    subnormal or a signed zero. *)
Definition float_of_decimal (neg : bool) (m : Z) (e10 : Z) : float :=
  match m with
  | Zpos p =>
      if 0 <=? e10
      then binary_round prec emax neg (p * Z.to_pos (10 ^ e10)) 0
      else
        let '(q, e2, loc) :=
          SFdiv_core_binary prec emax (Zpos p) 0 (10 ^ (- e10)) 0 in
        binary_round_aux prec emax neg q e2 loc
  | _ => S754_zero neg
  end.

(** [float(n)] for an int [n]: what an int operand of a float operation
    becomes. *)
Definition float_of_Z (n : Z) : float :=
  binary_normalize prec emax n 0 false.

(** *** [bytes.strip()] *)

(** [Py_ISSPACE]: tab, line feed, vertical tab, form feed, carriage return
    and space. *)
Definition is_space (c : byte) : bool :=
  match c with
  | x09 | x0a | x0b | x0c | x0d | x20 => true
  | _ => false
  end.

Fixpoint lstrip (s : bytes) : bytes :=
  match s with
  | c :: s' => if is_space c then lstrip s' else s
  | [] => []
  end.

Definition rstrip (s : bytes) : bytes := rev (lstrip (rev s)).

Definition strip (s : bytes) : bytes := rstrip (lstrip s).

(** *** [float(bytes)]

    CPython's [PyFloat_FromString] on a bytes object: underscores are
    validated and removed ([_Py_string_to_number_with_underscores]), white
    space is stripped and [_PyOS_ascii_strtod] must consume all that is left
    ([float_from_string_inner]).  [None] stands for [ValueError]. *)

Definition is_digit (c : byte) : bool :=
  match c with
  | x30 | x31 | x32 | x33 | x34 | x35 | x36 | x37 | x38 | x39 => true
  | _ => false
  end.

Definition digit_value (c : byte) : Z := Z.of_N (Byte.to_N c) - 48.

Definition digits_value (ds : bytes) : Z :=
  fold_left (fun acc d => 10 * acc + digit_value d) ds 0.

(** The longest prefix of digits, and what follows it. *)
Fixpoint take_digits (s : bytes) : bytes * bytes :=
  match s with
  | c :: s' =>
      if is_digit c
      then let '(ds, r) := take_digits s' in (c :: ds, r)
      else ([], s)
  | [] => ([], [])
  end.

Definition parse_sign (s : bytes) : bool * bytes :=
  match s with
  | x2d :: r => (true, r)
  | x2b :: r => (false, r)
  | _ => (false, s)
  end.

(** [MAX_ABS_EXP]: an exponent of ten or more significant digits is
    replaced by this bound. *)
Definition MAX_ABS_EXP : Z := 1100000000.

Definition clamp_exp (v : Z) : Z :=
  if v <? 1000000000 then v else MAX_ABS_EXP.

(** The exponent part: [e] or [E], an optional sign and at least one digit;
    without a digit nothing is consumed, the [e] stays in the remainder. *)
Definition parse_exponent (s : bytes) : Z * bytes :=
  match s with
  | c :: r =>
      match c with
      | x65 | x45 =>
          let '(esign, r1) := parse_sign r in
          let '(ed, r2) := take_digits r1 in
          match ed with
          | [] => (0, s)
          | _ => (cond_Zopp esign (clamp_exp (digits_value ed)), r2)
          end
      | _ => (0, s)
      end
  | [] => (0, s)
  end.

(** [_Py_dg_strtod]: the value of the longest decimal prefix and the
    remainder ([endptr]); [None] when there is no digit at all (the parse
    error that leaves [endptr] at the start).  Exact for inputs of fewer
    than [10^9] digits, beyond which the C code gives up. *)
Definition _Py_dg_strtod (s : bytes) : option (float * bytes) :=
  let '(neg, s1) := parse_sign s in
  let '(ip, s2) := take_digits s1 in
  let '(fp, s3) :=
    match s2 with
    | x2e :: r => take_digits r
    | _ => ([], s2)
    end in
  match ip ++ fp with
  | [] => None
  | ds =>
      let '(e, s4) := parse_exponent s3 in
      Some (float_of_decimal neg (digits_value ds) (e - Z.of_nat (length fp)), s4)
  end.

(** [Py_TOLOWER] on the ASCII letters. *)
Definition to_lower (c : byte) : byte :=
  let n := Byte.to_N c in
  if ((65 <=? n) && (n <=? 90))%N
  then default c (Byte.of_N (n + 32))
  else c.

(** [case_insensitive_match]: [Some rest] when [s] starts with the lower
    case word [t], whatever the case of the letters of [s]. *)
Fixpoint case_insensitive_match (s t : bytes) : option bytes :=
  match t with
  | [] => Some s
  | ct :: t' =>
      match s with
      | cs :: s' =>
          if Byte.eqb (to_lower cs) ct then case_insensitive_match s' t' else None
      | [] => None
      end
  end.

(** [_Py_parse_inf_or_nan]: an optional sign, then [inf], [infinity] or
    [nan].  The sign of a NaN is not observable in the model. *)
Definition _Py_parse_inf_or_nan (s : bytes) : option (float * bytes) :=
  let '(neg, s1) := parse_sign s in
  match case_insensitive_match s1 (b "inf") with
  | Some s2 =>
      match case_insensitive_match s2 (b "inity") with
      | Some s3 => Some (S754_infinity neg, s3)
      | None => Some (S754_infinity neg, s2)
      end
  | None =>
      match case_insensitive_match s1 (b "nan") with
      | Some s2 => Some (S754_nan, s2)
      | None => None
      end
  end.

Definition _PyOS_ascii_strtod (s : bytes) : option (float * bytes) :=
  match _Py_dg_strtod s with
  | Some r => Some r
  | None => _Py_parse_inf_or_nan s
  end.

Definition float_from_string_inner (s : bytes) : option float :=
  match _PyOS_ascii_strtod (strip s) with
  | Some (x, []) => Some x
  | _ => None
  end.

(** The copy without underscores: an underscore must follow a digit and be
    followed by one; a NUL byte ends the scan early, which is an error. *)
Fixpoint remove_underscores (prev : byte) (s : bytes) : option bytes :=
  match s with
  | [] => if Byte.eqb prev x5f then None else Some []
  | c :: r =>
      if Byte.eqb c x00 then None
      else if Byte.eqb c x5f
      then if is_digit prev then remove_underscores c r else None
      else if Byte.eqb prev x5f && negb (is_digit c) then None
      else cons c <$> remove_underscores c r
  end.

Definition _Py_string_to_number_with_underscores (s : bytes) : option float :=
  if existsb (Byte.eqb x5f) s
  then remove_underscores x00 s ≫= float_from_string_inner
  else float_from_string_inner s.

(** [float(s)] for a bytes object [s]. *)
Definition float_of_bytes (s : bytes) : option float :=
  _Py_string_to_number_with_underscores s.

(** The float a decimal literal of a Python source denotes. *)
Definition lit (s : string) : float :=
  default S754_nan (float_of_bytes (b s)).

(** The constants of [_update_plot]: the literals [0.05] and [1.0], and the
    ints [30], [1] and [0] as operands of a float operation. *)
Definition f0_05 : float := Eval vm_compute in lit "0.05".
Definition f1_0 : float := Eval vm_compute in lit "1.0".
Definition f30 : float := Eval vm_compute in float_of_Z 30.
Definition f0 : float := Eval vm_compute in float_of_Z 0.

End Py.

Import Py.

(** ** pyserial and the queue *)

(** [serial.SerialException]; [strerror] is what [str(exc)] shows. *)
Record SerialException := { strerror : string }.

(** What a call into pyserial does: it returns, raises [SerialException],
    or raises something the program has no handler for. *)
Inductive result (A : Type) :=
  | Return (a : A)
  | Raise (exc : SerialException)
  | RaiseOther.
Arguments Return {A} a.
Arguments Raise {A} exc.
Arguments RaiseOther {A}.

(** [@dataclass SerialConfig]. *)
Record SerialConfig := {
  port : string;
  baudrate : Z;
  timeout : float
}.

(** The dataclass defaults: [baudrate: int = 9600] is always overridden by
    the caller, [timeout: float = 1.0] never is. *)
Definition mkSerialConfig (port : string) (baudrate : Z) : SerialConfig :=
  {| port := port; baudrate := baudrate; timeout := f1_0 |}.

(** The items of [queue.Queue[float | Exception]]. *)
Inductive item :=
  | Value (value : float)
  | Exc (exc : SerialException).

(** ** [SerialReader] *)

Module SerialReader.

(** How one pass through the body of [while not self._stop_event.is_set()]
    ends. *)
Inductive control := Continue | Break | Propagate.

(** The body of the loop, lines 89 to 101, given what
    [self._serial.readline()] does: the items put on the queue and how the
    pass ends. *)
Definition loop_body (readline : result bytes) : list item * control :=
  match readline with
  | Return line =>
      match line with
      | [] => ([], Continue)
      | _ =>
          match float_of_bytes (strip line) with
          | Some value => ([Value value], Continue)
          | None => ([], Continue)
          end
      end
  | Raise exc => ([Exc exc], Break)
  | RaiseOther => ([], Propagate)
  end.

(** What the thread observes at the head of one pass: the stop event is
    set, or it is not and [readline] is called. *)
Inductive observation :=
  | StopSet
  | Readline (r : result bytes).

(** The while loop on a finite script of observations; the items put on
    the queue, in order.  A script that ends leaves the thread in the loop:
    it has put nothing more yet. *)
Fixpoint while_loop (script : list observation) : list item :=
  match script with
  | [] => []
  | StopSet :: _ => []
  | Readline r :: rest =>
      let '(puts, c) := loop_body r in
      puts ++ match c with
              | Continue => while_loop rest
              | Break | Propagate => []
              end
  end.

(** [run], given what [Serial(...)] and [self._serial.flushInput()] do.
    An exception of [flushInput], which is outside every [try], leaves
    [run] with nothing put.  The [close()] that ends [run] puts nothing
    and is left out. *)
Definition run (opened flushed : result unit) (script : list observation)
    : list item :=
  match opened with
  | Raise exc => [Exc exc]
  | RaiseOther => []
  | Return _ =>
      match flushed with
      | Return _ => while_loop script
      | Raise _ | RaiseOther => []
      end
  end.

(** The thread as an object of the heap.  [pc] is where its [run] stands:
    before [Serial(...)], before [flushInput()], at the head of the loop
    (line 88, about to test the stop event), inside the body (line 90, the
    test passed and [readline] has not returned yet), or left. *)
Inductive position := AtOpen | AtFlush | InLoop | InReadline | Finished.

Record t := {
  config : SerialConfig;
  data_queue : nat;
  _stop_event : bool;
  pc : position
}.

(** [SerialReader(config, data_queue)] followed by [start()]. *)
Definition __init__ (config : SerialConfig) (data_queue : nat) : t :=
  {| config := config; data_queue := data_queue;
     _stop_event := false; pc := AtOpen |}.

Definition stop (r : t) : t :=
  {| config := config r; data_queue := data_queue r;
     _stop_event := true; pc := pc r |}.

Definition goto (p : position) (r : t) : t :=
  {| config := config r; data_queue := data_queue r;
     _stop_event := _stop_event r; pc := p |}.

(** A thread that has not returned from [run]. *)
Definition is_alive (r : t) : bool :=
  match pc r with Finished => false | _ => true end.

(** What the thread does next: one of its three calls on the port
    returns or raises, or it evaluates the condition of the [while]. *)
Inductive io :=
  | Open (r : result unit)
  | Flush (r : result unit)
  | Head
  | Read (r : result bytes).

(** One step of the thread: the call of [Serial(...)], the call of
    [flushInput()], the test of the stop event at the head of the loop, or
    the rest of the pass once [readline] has returned.  The test and the
    read are two steps: a [stop()] that arrives while the thread waits in
    [readline] does not keep that pass from putting its item; the thread
    sees it at the next test.  An [io] the thread is not waiting for leaves
    it where it is. *)
Definition step (r : t) (ev : io) : t * list item :=
  match pc r with
  | AtOpen =>
      match ev with
      | Open (Return _) => (goto AtFlush r, [])
      | Open (Raise exc) => (goto Finished r, [Exc exc])
      | Open RaiseOther => (goto Finished r, [])
      | Flush _ | Head | Read _ => (r, [])
      end
  | AtFlush =>
      match ev with
      | Flush (Return _) => (goto InLoop r, [])
      | Flush (Raise _) | Flush RaiseOther => (goto Finished r, [])
      | Open _ | Head | Read _ => (r, [])
      end
  | InLoop =>
      match ev with
      | Head =>
          if _stop_event r then (goto Finished r, [])
          else (goto InReadline r, [])
      | Open _ | Flush _ | Read _ => (r, [])
      end
  | InReadline =>
      match ev with
      | Read rl =>
          let '(puts, c) := loop_body rl in
          (match c with
           | Continue => goto InLoop r
           | Break | Propagate => goto Finished r
           end, puts)
      | Open _ | Flush _ | Head => (r, [])
      end
  | Finished => (r, [])
  end.

End SerialReader.

(** ** Qt and matplotlib, as far as the program uses them *)

Inductive icon := Warning | Critical.

(** A modal [QMessageBox] shown to the user. *)
Record MessageBox := { box_icon : icon; title : string; text : string }.

(** ** [SerialPlotter] *)

Module SerialPlotter.

(** The window with the objects it shares with its threads.  [queues] and
    [readers] are the heap: every [queue.Queue] and every [SerialReader]
    constructed so far, named by their index.  The attributes follow;
    [_start_btn] and [_stop_btn] hold the buttons' enabled state, [_line]
    what [set_data] was last given, [xlim] and [ylim] the limits of the
    last [set_xlim] and [set_ylim] that did not raise ([None]: there was
    none yet).  [boxes] and [draw_idle] record the message boxes shown
    and the calls of [self._canvas.draw_idle()]. *)
Record t := {
  queues : list (list item);
  readers : list SerialReader.t;
  _data_queue : nat;
  _data : list float;
  _time : list float;
  _start_time : float;
  _reader : option nat;
  _timer : nat;
  _start_btn : bool;
  _stop_btn : bool;
  _line : list float * list float;
  xlim : option (float * float);
  ylim : option (float * float);
  boxes : list MessageBox;
  draw_idle : nat
}.

Definition set_queues (v : list (list item)) (w : t) : t :=
  {| queues := v; readers := readers w; _data_queue := _data_queue w;
     _data := _data w; _time := _time w; _start_time := _start_time w;
     _reader := _reader w; _timer := _timer w; _start_btn := _start_btn w;
     _stop_btn := _stop_btn w; _line := _line w; xlim := xlim w;
     ylim := ylim w; boxes := boxes w; draw_idle := draw_idle w |}.

Definition set_readers (v : list SerialReader.t) (w : t) : t :=
  {| queues := queues w; readers := v; _data_queue := _data_queue w;
     _data := _data w; _time := _time w; _start_time := _start_time w;
     _reader := _reader w; _timer := _timer w; _start_btn := _start_btn w;
     _stop_btn := _stop_btn w; _line := _line w; xlim := xlim w;
     ylim := ylim w; boxes := boxes w; draw_idle := draw_idle w |}.

Definition set__data (v : list float) (w : t) : t :=
  {| queues := queues w; readers := readers w; _data_queue := _data_queue w;
     _data := v; _time := _time w; _start_time := _start_time w;
     _reader := _reader w; _timer := _timer w; _start_btn := _start_btn w;
     _stop_btn := _stop_btn w; _line := _line w; xlim := xlim w;
     ylim := ylim w; boxes := boxes w; draw_idle := draw_idle w |}.

Definition set__time (v : list float) (w : t) : t :=
  {| queues := queues w; readers := readers w; _data_queue := _data_queue w;
     _data := _data w; _time := v; _start_time := _start_time w;
     _reader := _reader w; _timer := _timer w; _start_btn := _start_btn w;
     _stop_btn := _stop_btn w; _line := _line w; xlim := xlim w;
     ylim := ylim w; boxes := boxes w; draw_idle := draw_idle w |}.

Definition set__start_time (v : float) (w : t) : t :=
  {| queues := queues w; readers := readers w; _data_queue := _data_queue w;
     _data := _data w; _time := _time w; _start_time := v;
     _reader := _reader w; _timer := _timer w; _start_btn := _start_btn w;
     _stop_btn := _stop_btn w; _line := _line w; xlim := xlim w;
     ylim := ylim w; boxes := boxes w; draw_idle := draw_idle w |}.

Definition set__reader (v : option nat) (w : t) : t :=
  {| queues := queues w; readers := readers w; _data_queue := _data_queue w;
     _data := _data w; _time := _time w; _start_time := _start_time w;
     _reader := v; _timer := _timer w; _start_btn := _start_btn w;
     _stop_btn := _stop_btn w; _line := _line w; xlim := xlim w;
     ylim := ylim w; boxes := boxes w; draw_idle := draw_idle w |}.

Definition set__start_btn (v : bool) (w : t) : t :=
  {| queues := queues w; readers := readers w; _data_queue := _data_queue w;
     _data := _data w; _time := _time w; _start_time := _start_time w;
     _reader := _reader w; _timer := _timer w; _start_btn := v;
     _stop_btn := _stop_btn w; _line := _line w; xlim := xlim w;
     ylim := ylim w; boxes := boxes w; draw_idle := draw_idle w |}.

Definition set__stop_btn (v : bool) (w : t) : t :=
  {| queues := queues w; readers := readers w; _data_queue := _data_queue w;
     _data := _data w; _time := _time w; _start_time := _start_time w;
     _reader := _reader w; _timer := _timer w; _start_btn := _start_btn w;
     _stop_btn := v; _line := _line w; xlim := xlim w; ylim := ylim w;
     boxes := boxes w; draw_idle := draw_idle w |}.

Definition set__line (v : list float * list float) (w : t) : t :=
  {| queues := queues w; readers := readers w; _data_queue := _data_queue w;
     _data := _data w; _time := _time w; _start_time := _start_time w;
     _reader := _reader w; _timer := _timer w; _start_btn := _start_btn w;
     _stop_btn := _stop_btn w; _line := v; xlim := xlim w; ylim := ylim w;
     boxes := boxes w; draw_idle := draw_idle w |}.

Definition set_xlim (v : option (float * float)) (w : t) : t :=
  {| queues := queues w; readers := readers w; _data_queue := _data_queue w;
     _data := _data w; _time := _time w; _start_time := _start_time w;
     _reader := _reader w; _timer := _timer w; _start_btn := _start_btn w;
     _stop_btn := _stop_btn w; _line := _line w; xlim := v; ylim := ylim w;
     boxes := boxes w; draw_idle := draw_idle w |}.

Definition set_ylim (v : option (float * float)) (w : t) : t :=
  {| queues := queues w; readers := readers w; _data_queue := _data_queue w;
     _data := _data w; _time := _time w; _start_time := _start_time w;
     _reader := _reader w; _timer := _timer w; _start_btn := _start_btn w;
     _stop_btn := _stop_btn w; _line := _line w; xlim := xlim w; ylim := v;
     boxes := boxes w; draw_idle := draw_idle w |}.

Definition set_boxes (v : list MessageBox) (w : t) : t :=
  {| queues := queues w; readers := readers w; _data_queue := _data_queue w;
     _data := _data w; _time := _time w; _start_time := _start_time w;
     _reader := _reader w; _timer := _timer w; _start_btn := _start_btn w;
     _stop_btn := _stop_btn w; _line := _line w; xlim := xlim w;
     ylim := ylim w; boxes := v; draw_idle := draw_idle w |}.

Definition set_draw_idle (v : nat) (w : t) : t :=
  {| queues := queues w; readers := readers w; _data_queue := _data_queue w;
     _data := _data w; _time := _time w; _start_time := _start_time w;
     _reader := _reader w; _timer := _timer w; _start_btn := _start_btn w;
     _stop_btn := _stop_btn w; _line := _line w; xlim := xlim w;
     ylim := ylim w; boxes := boxes w; draw_idle := v |}.

(** [SerialPlotter.__init__]: one queue is created, the buffers are empty,
    there is no reader, Start is enabled and Stop is not.  [now] is what
    [time.time()] returns and [timer] what [self.startTimer(33)] does. *)
Definition __init__ (now : float) (timer : nat) : t :=
  {| queues := [[]]; readers := [];
     _data_queue := 0%nat; _data := []; _time := []; _start_time := now;
     _reader := None; _timer := timer;
     _start_btn := true; _stop_btn := false;
     _line := ([], []); xlim := None; ylim := None;
     boxes := []; draw_idle := 0%nat |}.

(** [QMessageBox.warning] and [QMessageBox.critical]: the box is shown and
    the call returns when the user closes it. *)
Definition warning (title text : string) (w : t) : t :=
  set_boxes (boxes w ++ [{| box_icon := Warning; title := title; text := text |}]) w.

Definition critical (title text : string) (w : t) : t :=
  set_boxes (boxes w ++ [{| box_icon := Critical; title := title; text := text |}]) w.

(** [_start_reading].  [port] is [self._port_combo.currentText()], [baud]
    what [int(self._baud_edit.text())] does ([None]: [ValueError]) and [now]
    what [time.time()] returns. *)
Definition _start_reading (port : string) (baud : option Z) (now : float)
    (w : t) : t :=
  match port with
  | EmptyString =>
      warning "No Port Selected" "Please select a serial port to start." w
  | _ =>
      match baud with
      | None => critical "Invalid Baudrate" "Baudrate must be an integer." w
      | Some baud =>
          let config := mkSerialConfig port baud in
          let reader := length (readers w) in
          let w := set_readers
                     (readers w ++ [SerialReader.__init__ config (_data_queue w)]) w in
          let w := set__reader (Some reader) w in
          let w := set__start_btn false w in
          let w := set__stop_btn true w in
          let w := set__start_time now w in
          let w := set__data [] w in
          set__time [] w
      end
  end.

(** [_stop_reading].  [join(timeout=1.0)] changes nothing in the window:
    the thread may or may not have returned when it gives up; the steps the
    thread takes meanwhile are steps of the thread. *)
Definition _stop_reading (w : t) : t :=
  let w :=
    match _reader w with
    | Some reader =>
        let w := set_readers (alter SerialReader.stop reader (readers w)) w in
        set__reader None w
    | None => w
    end in
  let w := set__start_btn true w in
  set__stop_btn false w.

(** [self._data_queue.get()] leaves [rest] in the queue. *)
Definition get (rest : list item) (w : t) : t :=
  set_queues (<[_data_queue w := rest]> (queues w)) w.

(** The loop of [timerEvent] on the items found in the queue.  [clock k]
    is what the [k]-th call of [time.time()] from now on returns. *)
Fixpoint drain (items : list item) (clock : nat -> float) (w : t) : t :=
  match items with
  | [] => w
  | item :: rest =>
      let w := get rest w in
      match item with
      | Exc exc =>
          let w := critical "Serial Error" (strerror exc) w in
          let w := _stop_reading w in
          drain rest clock w
      | Value value =>
          let current_time := fsub (clock 0%nat) (_start_time w) in
          let w := set__time (_time w ++ [current_time]) w in
          let w := set__data (_data w ++ [value]) w in
          drain rest (fun k => clock (S k)) w
      end
  end.

(** [timerEvent] for the timer [timerId]. *)
Definition timerEvent (timerId : nat) (clock : nat -> float) (w : t) : t :=
  if decide (timerId = _timer w) then
    let w := drain (default [] (queues w !! _data_queue w)) clock w in
    match _data w with
    | [] => w
    | _ => set_draw_idle (S (draw_idle w)) w
    end
  else w.

(** The builtins [min] and [max] on a non-empty list: the first item is
    kept until a later one compares smaller (larger). *)
Definition py_min (x : float) (xs : list float) : float :=
  fold_left (fun cur item => if flt item cur then item else cur) xs x.

Definition py_max (x : float) (xs : list float) : float :=
  fold_left (fun cur item => if flt cur item then item else cur) xs x.

(** [max(0, x)]; the int [0] reaches [set_xlim] as the float zero. *)
Definition max0 (x : float) : float :=
  if flt f0 x then x else f0.

(** How a method ends: it returns, or an exception leaves it, with the
    window as it is at that point. *)
Inductive outcome :=
  | Returned (w : t)
  | IndexError (w : t)
  | ValueError (w : t).

Definition state_of (o : outcome) : t :=
  match o with Returned w | IndexError w | ValueError w => w end.

(** [Axes.set_xlim] and [Axes.set_ylim] validate both limits before they
    change anything: a limit that is a NaN or an infinity raises
    [ValueError('Axis limits cannot be NaN or Inf')]. *)
Definition _validate_converted_limits (v0 v1 : float) : bool :=
  is_finite v0 && is_finite v1.

(** [_update_plot].  [set_data] stores the two lists.  A [set_xlim] that
    raises leaves the method before [set_ylim] is called. *)
Definition _update_plot (w : t) : outcome :=
  match _data w with
  | [] => Returned w
  | d :: ds =>
      let w := set__line (_time w, _data w) w in
      match last (_time w) with
      | None => IndexError w
      | Some latest =>
          let left := max0 (fsub latest f30) in
          let right := fadd latest f1_0 in
          if _validate_converted_limits left right then
            let w := set_xlim (Some (left, right)) w in
            let ymin := py_min d ds in
            let ymax := py_max d ds in
            let padding :=
              if feq ymin ymax then f1_0 else fmul f0_05 (fsub ymax ymin) in
            let bottom := fsub ymin padding in
            let top := fadd ymax padding in
            if _validate_converted_limits bottom top
            then Returned (set_ylim (Some (bottom, top)) w)
            else ValueError w
          else ValueError w
      end
  end.

Definition closeEvent (w : t) : t := _stop_reading w.

(** *** The window and its threads at work *)

(** [self.data_queue.put(...)] by a thread, for each of [items]. *)
Definition put (q : nat) (items : list item) (w : t) : t :=
  set_queues (alter (fun content => content ++ items) q (queues w)) w.

(** One step of the thread [tid]. *)
Definition reader_step (tid : nat) (ev : SerialReader.io) (w : t) : t :=
  match readers w !! tid with
  | Some r =>
      let '(r', puts) := SerialReader.step r ev in
      put (SerialReader.data_queue r) puts (set_readers (<[tid := r']> (readers w)) w)
  | None => w
  end.

(** What can happen next.  Qt delivers a click only to an enabled button;
    the timer and the animation fire on the GUI thread, where a handler
    runs to its end before the next one starts; a thread steps at any
    time.  What a thread puts while [timerEvent] is draining is drained by
    the same loop: it is a step of the thread before the event.  An
    exception that leaves [_update_plot] is reported by the event loop and
    not caught by the program; the window is then as the method left it.
    Where the report ends the program the run ends there, and what holds
    after every list of events holds for it too. *)
Inductive event :=
  | ClickStart (port : string) (baud : option Z) (now : float)
  | ClickStop
  | TimerEvent (timerId : nat) (clock : nat -> float)
  | Animation
  | CloseEvent
  | ReaderStep (tid : nat) (ev : SerialReader.io).

Definition step (w : t) (e : event) : t :=
  match e with
  | ClickStart port baud now =>
      if _start_btn w then _start_reading port baud now w else w
  | ClickStop => if _stop_btn w then _stop_reading w else w
  | TimerEvent timerId clock => timerEvent timerId clock w
  | Animation => state_of (_update_plot w)
  | CloseEvent => closeEvent w
  | ReaderStep tid ev => reader_step tid ev w
  end.

(** The window after [events], from its construction. *)
Definition exec (now : float) (timer : nat) (events : list event) : t :=
  fold_left step events (__init__ now timer).

End SerialPlotter.

(** ** Notions the statements use *)

(** A line that "parses as a finite float": [float(line.strip())] returns
    and its value is neither an infinity nor a NaN. *)
Definition parses_as_finite_float (line : bytes) : bool :=
  match float_of_bytes (strip line) with
  | Some value => is_finite value
  | None => false
  end.

(** The script of a thread that finds the stop event unset and reads
    [lines], one after the other. *)
Definition reads (lines : list bytes) : list SerialReader.observation :=
  map (fun line => SerialReader.Readline (Return line)) lines.

(** What a line puts on the queue. *)
Definition sample_of (line : bytes) : list item :=
  match float_of_bytes (strip line) with
  | Some value => [Value value]
  | None => []
  end.

(** The floats and the exceptions among the items of a queue, in order. *)
Definition values_of (items : list item) : list float :=
  omap (fun i => match i with Value v => Some v | Exc _ => None end) items.

Definition errors_of (items : list item) : list SerialException :=
  omap (fun i => match i with Exc e => Some e | Value _ => None end) items.

(** The box [timerEvent] shows for an exception. *)
Definition error_box (exc : SerialException) : MessageBox :=
  {| box_icon := Critical; title := "Serial Error"; text := strerror exc |}.

(** The steps of a thread on what the port does, and all it puts. *)
Fixpoint reader_steps (r : SerialReader.t) (evs : list SerialReader.io)
    : SerialReader.t * list item :=
  match evs with
  | [] => (r, [])
  | ev :: evs' =>
      let '(r1, puts1) := SerialReader.step r ev in
      let '(r2, puts2) := reader_steps r1 evs' in
      (r2, puts1 ++ puts2)
  end.

(** The steps of a thread in the loop, for each answer of [readline] in
    turn: the test at the head, which the thread passes as long as its stop
    event is not set, and the rest of the pass. *)
Definition passes (answers : list (result bytes)) : list SerialReader.io :=
  flat_map (fun a => [SerialReader.Head; SerialReader.Read a]) answers.

(** The order of the floats that are not NaN, as three integers compared
    lexicographically: the class (negative infinity, negative, zero,
    positive, positive infinity), then exponent and mantissa, both negated
    for a negative float. *)
Definition k1 (x : float) : Z :=
  match x with
  | S754_infinity true => -2
  | S754_finite true _ _ => -1
  | S754_zero _ | S754_nan => 0
  | S754_finite false _ _ => 1
  | S754_infinity false => 2
  end.

Definition k2 (x : float) : Z :=
  match x with
  | S754_finite true _ e => - e
  | S754_finite false _ e => e
  | _ => 0
  end.

Definition k3 (x : float) : Z :=
  match x with
  | S754_finite true m _ => Zneg m
  | S754_finite false m _ => Zpos m
  | _ => 0
  end.

Definition key_lt (x y : float) : Prop :=
  k1 x < k1 y \/ (k1 x = k1 y /\ (k2 x < k2 y \/ (k2 x = k2 y /\ k3 x < k3 y))).

Definition key_eq (x y : float) : Prop :=
  k1 x = k1 y /\ k2 x = k2 y /\ k3 x = k3 y.

(** No NaN among the values. *)
Definition no_nan (data : list float) : Prop :=
  Forall (fun v => is_nan v = false) data.

(** All values of the buffer are equal, as [==] compares them. *)
Definition all_equal (data : list float) : Prop :=
  forall x y, x ∈ data -> y ∈ data -> feq x y = true.

(** The timestamps of [n] samples appended by one [timerEvent] that finds
    the clock at [clock 0], [clock 1], ... *)
Definition stamps (clock : nat -> float) (start : float) (n : nat) : list float :=
  map (fun k => fsub (clock k) start) (seq 0 n).

(** The readers that have not been asked to stop. *)
Definition unstopped (w : SerialPlotter.t) : list SerialReader.t :=
  filter (fun r => SerialReader._stop_event r = false) (SerialPlotter.readers w).

(** The threads that have not returned from [run]. *)
Definition alive (w : SerialPlotter.t) : list SerialReader.t :=
  filter (fun r => SerialReader.is_alive r = true) (SerialPlotter.readers w).

(** What holds of the window whatever happens: the two buffers have the
    same length; Stop is enabled when Start is not, and Start is when there
    is no reader; there is one queue, the one [__init__] made, and every
    reader puts on it; a reader that has not been asked to stop is the one
    [_reader] names, and that one has not been asked to. *)
Record consistent (w : SerialPlotter.t) : Prop := {
  buffers_aligned :
    length (SerialPlotter._time w) = length (SerialPlotter._data w);
  stop_btn_enabled :
    SerialPlotter._stop_btn w = negb (SerialPlotter._start_btn w);
  start_btn_enabled :
    SerialPlotter._start_btn w = bool_decide (SerialPlotter._reader w = None);
  one_queue : length (SerialPlotter.queues w) = 1%nat;
  the_queue : SerialPlotter._data_queue w = 0%nat;
  readers_bound :
    Forall (fun r => SerialReader.data_queue r = SerialPlotter._data_queue w)
      (SerialPlotter.readers w);
  unstopped_is_current :
    forall tid r,
      SerialPlotter.readers w !! tid = Some r ->
      SerialReader._stop_event r = false ->
      SerialPlotter._reader w = Some tid;
  current_is_unstopped :
    forall tid,
      SerialPlotter._reader w = Some tid ->
      exists r,
        SerialPlotter.readers w !! tid = Some r /\
        SerialReader._stop_event r = false
}.

(** ** The rest of [SerialReader.run]: the calls on the port *)

(** The calls [run] makes on pyserial. *)
Inductive port_call := CallSerial | CallFlushInput | CallReadline | CallClose.

(** The clean-up after the loop, lines 104 and 105: [close()] is called
    when the port [is_open]. *)
Definition clean_up (is_open : bool) : list port_call :=
  if is_open then [CallClose] else [].

(** The calls of the while loop and of what follows it, on a script of
    observations.  An exception that is not a [SerialException] leaves [run]
    at once, without the clean-up; a script that ends leaves the thread in
    the loop. *)
Fixpoint loop_calls (is_open : bool) (script : list SerialReader.observation)
    : list port_call :=
  match script with
  | [] => []
  | SerialReader.StopSet :: _ => clean_up is_open
  | SerialReader.Readline r :: rest =>
      CallReadline ::
      match snd (SerialReader.loop_body r) with
      | SerialReader.Continue => loop_calls is_open rest
      | SerialReader.Break => clean_up is_open
      | SerialReader.Propagate => []
      end
  end.

(** The calls of [run]: after a failed [Serial(...)] it returns at once,
    and an exception of [flushInput()] leaves it. *)
Definition run_calls (opened flushed : result unit) (is_open : bool)
    (script : list SerialReader.observation) : list port_call :=
  CallSerial ::
  match opened with
  | Return _ =>
      CallFlushInput ::
      match flushed with
      | Return _ => loop_calls is_open script
      | Raise _ | RaiseOther => []
      end
  | Raise _ | RaiseOther => []
  end.

(** A pass of the loop in which [readline] times out: it returns [b""]. *)
Definition is_timeout (o : SerialReader.observation) : bool :=
  match o with
  | SerialReader.Readline (Return []) => true
  | _ => false
  end.

(** How far a thread has come in [run]. *)
Definition position_rank (p : SerialReader.position) : nat :=
  match p with
  | SerialReader.AtOpen => 0
  | SerialReader.AtFlush => 1
  | SerialReader.InLoop | SerialReader.InReadline => 2
  | SerialReader.Finished => 3
  end.

(** The steps of the thread [tid] of the window on what the port does. *)
Definition reader_run (tid : nat) (evs : list SerialReader.io)
    (w : SerialPlotter.t) : SerialPlotter.t :=
  fold_left (fun w ev => SerialPlotter.reader_step tid ev w) evs w.

(** The attributes of the window that belong to the GUI thread alone: all
    but the heap of queues and threads. *)
Definition gui_state (w : SerialPlotter.t) :=
  (SerialPlotter._data_queue w, SerialPlotter._data w, SerialPlotter._time w,
   SerialPlotter._start_time w, SerialPlotter._reader w, SerialPlotter._timer w,
   SerialPlotter._start_btn w, SerialPlotter._stop_btn w, SerialPlotter._line w,
   SerialPlotter.xlim w, SerialPlotter.ylim w, SerialPlotter.boxes w,
   SerialPlotter.draw_idle w).

(** What the chart was given. *)
Definition chart (w : SerialPlotter.t) :=
  (SerialPlotter._line w, SerialPlotter.xlim w, SerialPlotter.ylim w).

(** All of the window but the chart. *)
Definition but_chart (w : SerialPlotter.t) :=
  (SerialPlotter.queues w, SerialPlotter.readers w, SerialPlotter._data_queue w,
   SerialPlotter._data w, SerialPlotter._time w, SerialPlotter._start_time w,
   SerialPlotter._reader w, SerialPlotter._timer w, SerialPlotter._start_btn w,
   SerialPlotter._stop_btn w, SerialPlotter.boxes w, SerialPlotter.draw_idle w).

(** * The reader *)

Section Reader.

Import SerialReader.

Lemma loop_body_line (line : bytes) :
  loop_body (Return line) = (sample_of line, Continue).
Proof.
  unfold loop_body, sample_of.
  destruct line as [|c line]; [reflexivity|].
  destruct (float_of_bytes (strip (c :: line))); reflexivity.
Qed.

Lemma while_loop_reads_app (before : list bytes) (rest : list observation) :
  while_loop (reads before ++ rest)
  = flat_map sample_of before ++ while_loop rest.
Proof.
  induction before as [|line before IH]; [reflexivity|].
  cbn [reads map app while_loop flat_map].
  rewrite loop_body_line. fold (reads before).
  rewrite IH. apply app_assoc.
Qed.

(** [float()] on the lines of the end-to-end scenarios: decimals are
    accepted with their correctly rounded value, and [b"abc"], [b""],
    [b"1.2.3"] and [b"garbage"] raise [ValueError]. *)
Example float_of_bytes_examples :
  float_of_bytes (strip (b "3.14" ++ [x0a]))
    = Some (S754_finite false 7070651414971679 (-51)) /\
  float_of_bytes (strip (b "-0.5" ++ [x0a]))
    = Some (S754_finite true 4503599627370496 (-53)) /\
  float_of_bytes (strip (b "1e999")) = Some (S754_infinity false) /\
  float_of_bytes (strip (b "abc")) = None /\
  float_of_bytes (strip []) = None /\
  float_of_bytes (strip (b "1.2.3")) = None /\
  float_of_bytes (strip (b "garbage" ++ [x0a])) = None.
Proof. vm_compute. repeat split. Qed.

(** The first end-to-end scenario: the device sends [b"1.0\n"],
    [b"garbage\n"] and [b"2.0\n"]; two samples are put, in this order. *)
Example run_scenario :
  run (Return ()) (Return ())
    (reads [b "1.0" ++ [x0a]; b "garbage" ++ [x0a]; b "2.0" ++ [x0a]])
  = [Value (lit "1.0"); Value (lit "2.0")].
Proof. vm_compute. reflexivity. Qed.

(** A line that parses as a finite float is put on the queue. *)
Lemma finite_float_is_emitted (line : bytes) :
  parses_as_finite_float line = true ->
  exists value, sample_of line = [Value value] /\ is_finite value = true.
Proof.
  unfold parses_as_finite_float, sample_of.
  destruct (float_of_bytes (strip line)) as [value|]; [|discriminate].
  intros Hfin. exists value. split; [reflexivity|exact Hfin].
Qed.

(** C1, as the code has it: whatever lines were read before it, a line
    read by the loop puts [Value v] on the queue exactly when
    [float(line.strip())] returns [v]; otherwise it puts nothing; either
    way the loop goes on with what follows.  The test is [float()]'s, which
    also accepts [inf], [nan] and decimals that overflow. *)
Theorem reader_emits_what_float_accepts
    (before : list bytes) (line : bytes) (rest : list observation) :
  while_loop (reads before ++ Readline (Return line) :: rest)
  = while_loop (reads before)
    ++ match float_of_bytes (strip line) with
       | Some value => [Value value]
       | None => []
       end
    ++ while_loop rest.
Proof.
  rewrite while_loop_reads_app.
  pose proof (while_loop_reads_app before []) as Hbefore.
  rewrite app_nil_r in Hbefore. cbn [while_loop] in Hbefore.
  rewrite app_nil_r in Hbefore. rewrite Hbefore.
  cbn [while_loop]. rewrite loop_body_line.
  reflexivity.
Qed.

(** C1, as stated, fails: the line [b"nan\n"] does not parse as a finite
    float, and the loop puts a sample on the queue for it. *)
Lemma nan_line_is_emitted :
  parses_as_finite_float (b "nan" ++ [x0a]) = false /\
  while_loop [Readline (Return (b "nan" ++ [x0a]))] = [Value S754_nan].
Proof. split; reflexivity. Qed.

Lemma while_loop_shape (script : list observation) :
  exists values tail,
    while_loop script = map Value values ++ tail /\
    (tail = [] \/ exists exc, tail = [Exc exc]).
Proof.
  induction script as [|o script IH].
  - exists [], []. split; [reflexivity|left; reflexivity].
  - destruct o as [|r].
    + exists [], []. split; [reflexivity|left; reflexivity].
    + destruct r as [line|exc|].
      * cbn [while_loop]. rewrite loop_body_line.
        destruct IH as (values & tail & Heq & Htail).
        unfold sample_of.
        destruct (float_of_bytes (strip line)) as [value|].
        -- exists (value :: values), tail. split; [|exact Htail].
           rewrite Heq. reflexivity.
        -- exists values, tail. split; [exact Heq|exact Htail].
      * exists [], [Exc exc]. split; [reflexivity|].
        right. exists exc. reflexivity.
      * exists [], []. split; [reflexivity|left; reflexivity].
Qed.

(** C5: whatever the port does, what [run] puts on the queue is a sequence
    of values followed by nothing or by one exception: at most one
    exception, and nothing after it. *)
Theorem run_exception_is_last
    (opened flushed : result unit) (script : list observation) :
  exists values tail,
    run opened flushed script = map Value values ++ tail /\
    (tail = [] \/ exists exc, tail = [Exc exc]).
Proof.
  destruct opened as [[]|exc|]; cbn [run].
  - destruct flushed as [[]| |].
    + apply while_loop_shape.
    + exists [], []. split; [reflexivity|left; reflexivity].
    + exists [], []. split; [reflexivity|left; reflexivity].
  - exists [], [Exc exc]. split; [reflexivity|].
    right. exists exc. reflexivity.
  - exists [], []. split; [reflexivity|left; reflexivity].
Qed.

Lemma reader_steps_cons (r : t) (ev : io) (evs : list io) :
  reader_steps r (ev :: evs)
  = let '(r1, puts1) := step r ev in
    let '(r2, puts2) := reader_steps r1 evs in
    (r2, puts1 ++ puts2).
Proof. reflexivity. Qed.

(** A thread that has returned puts nothing more. *)
Lemma finished_puts_nothing (r : t) (evs : list io) :
  pc r = Finished -> reader_steps r evs = (r, []).
Proof.
  intros Hpc. induction evs as [|ev evs IH]; [reflexivity|].
  cbn [reader_steps]. unfold step. rewrite Hpc, IH. reflexivity.
Qed.

Lemma reader_steps_in_loop (r : t) (answers : list (result bytes)) :
  pc r = InLoop -> _stop_event r = false ->
  snd (reader_steps r (passes answers)) = while_loop (map Readline answers).
Proof.
  revert r.
  induction answers as [|a answers IH]; intros r Hpc Hstop; [reflexivity|].
  change (passes (a :: answers)) with (Head :: Read a :: passes answers).
  rewrite reader_steps_cons. unfold step at 1. rewrite Hpc, Hstop.
  rewrite reader_steps_cons. unfold step at 1. cbn [goto pc].
  cbn [map while_loop].
  destruct (loop_body a) as [puts []].
  - specialize (IH (goto InLoop (goto InReadline r)) eq_refl Hstop).
    destruct (reader_steps (goto InLoop (goto InReadline r)) (passes answers))
      as [r2 puts2].
    cbn [snd] in *. rewrite IH. reflexivity.
  - rewrite finished_puts_nothing by reflexivity. reflexivity.
  - rewrite finished_puts_nothing by reflexivity. reflexivity.
Qed.

(** The thread, step by step, puts what [run] says: from its start, on a
    port that opens as [opened], is flushed as [flushed] and then answers
    [answers], with the stop event unset all along. *)
Lemma reader_steps_run (config : SerialConfig) (q : nat)
    (opened flushed : result unit) (answers : list (result bytes)) :
  snd (reader_steps (__init__ config q)
         (Open opened :: Flush flushed :: passes answers))
  = run opened flushed (map Readline answers).
Proof.
  rewrite reader_steps_cons. unfold step at 1. cbn [__init__ pc].
  destruct opened as [[]|exc|]; cbn [run].
  - rewrite reader_steps_cons. unfold step at 1. cbn [goto pc].
    destruct flushed as [[]|exc|].
    + pose proof (reader_steps_in_loop
                    (goto InLoop (goto AtFlush (__init__ config q))) answers
                    eq_refl eq_refl) as Hloop.
      destruct (reader_steps (goto InLoop (goto AtFlush (__init__ config q)))
                  (passes answers)).
      exact Hloop.
    + rewrite finished_puts_nothing by reflexivity. reflexivity.
    + rewrite finished_puts_nothing by reflexivity. reflexivity.
  - rewrite finished_puts_nothing by reflexivity. reflexivity.
  - rewrite finished_puts_nothing by reflexivity. reflexivity.
Qed.

End Reader.

(** * The order of floats *)

Section FloatOrder.

Ltac compare_cases :=
  repeat match goal with
  | |- context [Z.compare ?a ?b] => destruct (Z.compare_spec a b)
  | |- context [Pos.compare_cont Eq ?a ?b] =>
      change (Pos.compare_cont Eq a b) with (Pos.compare a b);
      destruct (Pos.compare_spec a b)
  end.

Lemma compare_key (x y : float) :
  is_nan x = false -> is_nan y = false ->
  match SFcompare x y with
  | Some Lt => key_lt x y
  | Some Eq => key_eq x y
  | Some Gt => key_lt y x
  | None => False
  end.
Proof.
  unfold key_lt, key_eq.
  destruct x as [sx|sx| |sx mx ex], y as [sy|sy| |sy my ey];
    try discriminate; intros _ _;
    try destruct sx; try destruct sy; cbn [SFcompare k1 k2 k3 CompOpp];
    compare_cases; cbn [CompOpp]; lia.
Qed.

Ltac by_key x y Hx Hy :=
  pose proof (compare_key x y Hx Hy) as Hkey;
  unfold flt, fle, feq, SFltb, SFleb, SFeqb;
  destruct (SFcompare x y) as [[]|]; unfold key_lt, key_eq in *;
  split; intros; try discriminate; try reflexivity; try lia.

Lemma flt_iff (x y : float) :
  is_nan x = false -> is_nan y = false -> flt x y = true <-> key_lt x y.
Proof. intros Hx Hy. by_key x y Hx Hy. Qed.

Lemma flt_false_iff (x y : float) :
  is_nan x = false -> is_nan y = false ->
  flt x y = false <-> key_lt y x \/ key_eq x y.
Proof. intros Hx Hy. by_key x y Hx Hy. Qed.

Lemma fle_iff (x y : float) :
  is_nan x = false -> is_nan y = false ->
  fle x y = true <-> key_lt x y \/ key_eq x y.
Proof. intros Hx Hy. by_key x y Hx Hy. Qed.

Lemma feq_iff (x y : float) :
  is_nan x = false -> is_nan y = false -> feq x y = true <-> key_eq x y.
Proof. intros Hx Hy. by_key x y Hx Hy. Qed.

Lemma fle_refl (x : float) : is_nan x = false -> fle x x = true.
Proof. intros Hx. apply fle_iff; [assumption..|]. right. unfold key_eq. lia. Qed.

Lemma fle_trans (x y z : float) :
  is_nan x = false -> is_nan y = false -> is_nan z = false ->
  fle x y = true -> fle y z = true -> fle x z = true.
Proof.
  intros Hx Hy Hz. rewrite !fle_iff by assumption.
  unfold key_lt, key_eq. lia.
Qed.

(** Squeezed between two equal floats, a float equals them. *)
Lemma feq_squeeze (lo x hi : float) :
  is_nan lo = false -> is_nan x = false -> is_nan hi = false ->
  fle lo x = true -> fle x hi = true -> feq lo hi = true ->
  key_eq x lo.
Proof.
  intros Hlo Hx Hhi. rewrite !fle_iff, feq_iff by assumption.
  unfold key_lt, key_eq. lia.
Qed.

End FloatOrder.

(** * The redraw *)

Section Redraw.

Import SerialPlotter.

Lemma no_nan_elem (data : list float) (x : float) :
  no_nan data -> x ∈ data -> is_nan x = false.
Proof. intros Hnn Hx. exact (proj1 (Forall_forall _ _) Hnn x Hx). Qed.

Lemma flt_fle (x y : float) :
  is_nan x = false -> is_nan y = false -> flt x y = true -> fle x y = true.
Proof.
  intros Hx Hy Hlt. apply fle_iff; [assumption..|].
  left. apply flt_iff; assumption.
Qed.

Lemma not_flt_fle (x y : float) :
  is_nan x = false -> is_nan y = false -> flt x y = false -> fle y x = true.
Proof.
  intros Hx Hy Hlt. apply fle_iff; [assumption..|].
  apply flt_false_iff in Hlt; [|assumption..].
  unfold key_eq in *. destruct Hlt as [Hlt|Heq]; [left; exact Hlt|right; lia].
Qed.

(** [min] returns an item of the list that is below all of them. *)
Lemma py_min_spec (d : float) (ds : list float) :
  no_nan (d :: ds) ->
  py_min d ds ∈ d :: ds /\
  forall x, x ∈ d :: ds -> fle (py_min d ds) x = true.
Proof.
  revert d. induction ds as [|a ds IH]; intros d Hnn.
  - cbn. split; [left|].
    intros x Hx. apply list_elem_of_singleton in Hx as ->.
    apply fle_refl. eapply no_nan_elem; [exact Hnn|left].
  - assert (Hd : is_nan d = false) by (eapply no_nan_elem; [exact Hnn|left]).
    assert (Ha : is_nan a = false)
      by (eapply no_nan_elem; [exact Hnn|right; left]).
    change (py_min d (a :: ds)) with (py_min (if flt a d then a else d) ds).
    set (d' := if flt a d then a else d).
    assert (Hd' : d' = a \/ d' = d) by (subst d'; destruct (flt a d); auto).
    assert (Hnn' : no_nan (d' :: ds)).
    { apply Forall_cons. split.
      - destruct Hd' as [->| ->]; assumption.
      - unfold no_nan in Hnn. apply Forall_cons in Hnn as [_ Hnn].
        apply Forall_cons in Hnn as [_ Hnn]. exact Hnn. }
    destruct (IH d' Hnn') as [Hin Hle].
    assert (Hm : is_nan (py_min d' ds) = false)
      by (eapply no_nan_elem; [exact Hnn'|exact Hin]).
    assert (Hd'nan : is_nan d' = false)
      by (destruct Hd' as [->| ->]; assumption).
    assert (Hhead : fle (py_min d' ds) d' = true) by (apply Hle; left).
    assert (Hd'd : fle d' d = true).
    { subst d'. destruct (flt a d) eqn:Hlt.
      - apply flt_fle; assumption.
      - apply fle_refl; assumption. }
    assert (Hd'a : fle d' a = true).
    { subst d'. destruct (flt a d) eqn:Hlt.
      - apply fle_refl; assumption.
      - apply not_flt_fle; assumption. }
    split.
    + apply elem_of_cons in Hin as [Hin|Hin].
      * rewrite Hin. destruct Hd' as [->| ->]; [right; left|left].
      * right; right; exact Hin.
    + intros x Hx. apply elem_of_cons in Hx as [->|Hx].
      * apply fle_trans with d'; assumption.
      * apply elem_of_cons in Hx as [->|Hx].
        -- apply fle_trans with d'; assumption.
        -- apply Hle. right. exact Hx.
Qed.

(** [max] returns an item of the list that is above all of them. *)
Lemma py_max_spec (d : float) (ds : list float) :
  no_nan (d :: ds) ->
  py_max d ds ∈ d :: ds /\
  forall x, x ∈ d :: ds -> fle x (py_max d ds) = true.
Proof.
  revert d. induction ds as [|a ds IH]; intros d Hnn.
  - cbn. split; [left|].
    intros x Hx. apply list_elem_of_singleton in Hx as ->.
    apply fle_refl. eapply no_nan_elem; [exact Hnn|left].
  - assert (Hd : is_nan d = false) by (eapply no_nan_elem; [exact Hnn|left]).
    assert (Ha : is_nan a = false)
      by (eapply no_nan_elem; [exact Hnn|right; left]).
    change (py_max d (a :: ds)) with (py_max (if flt d a then a else d) ds).
    set (d' := if flt d a then a else d).
    assert (Hd' : d' = a \/ d' = d) by (subst d'; destruct (flt d a); auto).
    assert (Hnn' : no_nan (d' :: ds)).
    { apply Forall_cons. split.
      - destruct Hd' as [->| ->]; assumption.
      - unfold no_nan in Hnn. apply Forall_cons in Hnn as [_ Hnn].
        apply Forall_cons in Hnn as [_ Hnn]. exact Hnn. }
    destruct (IH d' Hnn') as [Hin Hle].
    assert (Hm : is_nan (py_max d' ds) = false)
      by (eapply no_nan_elem; [exact Hnn'|exact Hin]).
    assert (Hd'nan : is_nan d' = false)
      by (destruct Hd' as [->| ->]; assumption).
    assert (Hhead : fle d' (py_max d' ds) = true) by (apply Hle; left).
    assert (Hdd' : fle d d' = true).
    { subst d'. destruct (flt d a) eqn:Hlt.
      - apply flt_fle; assumption.
      - apply fle_refl; assumption. }
    assert (Had' : fle a d' = true).
    { subst d'. destruct (flt d a) eqn:Hlt.
      - apply fle_refl; assumption.
      - apply not_flt_fle; assumption. }
    split.
    + apply elem_of_cons in Hin as [Hin|Hin].
      * rewrite Hin. destruct Hd' as [->| ->]; [right; left|left].
      * right; right; exact Hin.
    + intros x Hx. apply elem_of_cons in Hx as [->|Hx].
      * apply fle_trans with d'; assumption.
      * apply elem_of_cons in Hx as [->|Hx].
        -- apply fle_trans with d'; assumption.
        -- apply Hle. right. exact Hx.
Qed.

(** What the redraw leaves behind, however it ends: the window with its
    chart given some line data and some ranges. *)
Lemma state_of_update_plot (w : t) :
  exists l x y,
    state_of (_update_plot w) = set_ylim y (set_xlim x (set__line l w)).
Proof.
  unfold _update_plot.
  destruct (_data w) as [|d ds].
  - exists (_line w), (xlim w), (ylim w). destruct w; reflexivity.
  - cbn [_time set__line].
    destruct (last (_time w)) as [latest|].
    + destruct (_validate_converted_limits _ _).
      * destruct (_validate_converted_limits _ _).
        -- eexists (_time w, d :: ds), (Some _), (Some _). reflexivity.
        -- eexists (_time w, d :: ds), (Some _), (ylim w). reflexivity.
      * exists (_time w, d :: ds), (xlim w), (ylim w). reflexivity.
    + exists (_time w, d :: ds), (xlim w), (ylim w). reflexivity.
Qed.

(** The redraw of a non-empty buffer that has a latest timestamp:
    [set_xlim] may refuse its limits, and then [set_ylim] may. *)
Lemma _update_plot_nonempty (w : t) (d : float) (ds : list float)
    (latest : float) :
  _data w = d :: ds -> last (_time w) = Some latest ->
  let left := max0 (fsub latest f30) in
  let right := fadd latest f1_0 in
  let ymin := py_min d ds in
  let ymax := py_max d ds in
  let padding := if feq ymin ymax then f1_0 else fmul f0_05 (fsub ymax ymin) in
  let w1 := set__line (_time w, _data w) w in
  let w2 := set_xlim (Some (left, right)) w1 in
  _update_plot w =
    if _validate_converted_limits left right then
      if _validate_converted_limits (fsub ymin padding) (fadd ymax padding)
      then Returned (set_ylim (Some (fsub ymin padding, fadd ymax padding)) w2)
      else ValueError w2
    else ValueError w1.
Proof.
  intros Hdata Hlast. unfold _update_plot. rewrite Hdata.
  cbn [_time set__line]. rewrite Hlast. reflexivity.
Qed.

(** With as many timestamps as values there is a latest timestamp whenever
    there is a value: [self._time[-1]] does not raise. *)
Lemma _update_plot_no_IndexError (w w' : t) :
  length (_time w) = length (_data w) -> _update_plot w <> IndexError w'.
Proof.
  intros Hlen. unfold _update_plot.
  destruct (_data w) as [|d ds] eqn:Hdata; [discriminate|].
  cbn [_time set__line].
  destruct (last (_time w)) as [latest|] eqn:Hlast.
  - destruct (_validate_converted_limits _ _); [|discriminate].
    destruct (_validate_converted_limits _ _); discriminate.
  - apply last_None in Hlast. rewrite Hlast in Hlen. discriminate.
Qed.

(** C6, amended: for a buffer that is not empty and holds no NaN, whose x
    range [set_xlim] has accepted, the redraw computes the y range
    [ymin - pad, ymax + pad], where [ymin] and [ymax] are the least and the
    greatest value of the buffer, [pad] is [1.0] when all values are equal
    and [0.05 * (ymax - ymin)] when they are not.  [set_ylim] takes the
    range when both ends are finite; when one is not it raises
    [ValueError] and the y range stays as it was.  So the range is
    [v - 1.0, v + 1.0] when every value is [v] and both ends are finite,
    and [-0.5, 10.5] when the values are 0 and 10. *)
Theorem ylim_is_padded_range (w : t) (latest : float) :
  _data w <> [] ->
  last (_time w) = Some latest ->
  _validate_converted_limits (max0 (fsub latest f30)) (fadd latest f1_0) = true ->
  no_nan (_data w) ->
  exists ymin ymax pad,
    (ymin ∈ _data w /\ forall x, x ∈ _data w -> fle ymin x = true) /\
    (ymax ∈ _data w /\ forall x, x ∈ _data w -> fle x ymax = true) /\
    (all_equal (_data w) -> pad = f1_0) /\
    (~ all_equal (_data w) -> pad = fmul f0_05 (fsub ymax ymin)) /\
    (_validate_converted_limits (fsub ymin pad) (fadd ymax pad) = true ->
     exists w',
       _update_plot w = Returned w' /\
       ylim w' = Some (fsub ymin pad, fadd ymax pad)) /\
    (_validate_converted_limits (fsub ymin pad) (fadd ymax pad) = false ->
     exists w', _update_plot w = ValueError w' /\ ylim w' = ylim w) /\
    (forall v, (forall x, x ∈ _data w -> x = v) ->
       _validate_converted_limits (fsub v f1_0) (fadd v f1_0) = true ->
       ylim (state_of (_update_plot w)) = Some (fsub v f1_0, fadd v f1_0)) /\
    ((forall x, x ∈ _data w <-> x = lit "0" \/ x = lit "10") ->
       ylim (state_of (_update_plot w)) = Some (lit "-0.5", lit "10.5")).
Proof.
  intros Hne Hlast Hx Hnn.
  destruct (_data w) as [|d ds] eqn:Hdata; [contradiction|].
  pose proof (_update_plot_nonempty w d ds latest Hdata Hlast) as Hup.
  cbv zeta in Hup. rewrite Hx in Hup.
  destruct (py_min_spec d ds Hnn) as [Hmin_in Hmin_le].
  destruct (py_max_spec d ds Hnn) as [Hmax_in Hmax_le].
  set (ymin := py_min d ds) in *. set (ymax := py_max d ds) in *.
  assert (Hymin : is_nan ymin = false) by (eapply no_nan_elem; eassumption).
  assert (Hymax : is_nan ymax = false) by (eapply no_nan_elem; eassumption).
  assert (Hall : feq ymin ymax = true <-> all_equal (d :: ds)).
  { split.
    - intros Heq x y Hx' Hy'.
      assert (Hxn : is_nan x = false) by (eapply no_nan_elem; eassumption).
      assert (Hyn : is_nan y = false) by (eapply no_nan_elem; eassumption).
      pose proof (feq_squeeze ymin x ymax Hymin Hxn Hymax
                    (Hmin_le x Hx') (Hmax_le x Hx') Heq) as Hkx.
      pose proof (feq_squeeze ymin y ymax Hymin Hyn Hymax
                    (Hmin_le y Hy') (Hmax_le y Hy') Heq) as Hky.
      apply feq_iff; [assumption..|]. unfold key_eq in *. lia.
    - intros Hall. apply Hall; assumption. }
  set (pad := if feq ymin ymax then f1_0 else fmul f0_05 (fsub ymax ymin)) in *.
  exists ymin, ymax, pad.
  split; [split; assumption|].
  split; [split; assumption|].
  split; [|split; [|split; [|split; [|split]]]].
  - intros Heq. apply Hall in Heq. subst pad. rewrite Heq. reflexivity.
  - intros Hneq. subst pad. destruct (feq ymin ymax) eqn:Heq; [|reflexivity].
    exfalso. apply Hneq, Hall. reflexivity.
  - intros Hy. rewrite Hy in Hup. eexists. split; [exact Hup|reflexivity].
  - intros Hy. rewrite Hy in Hup. eexists. split; [exact Hup|reflexivity].
  - intros v Hv Hy.
    assert (Hpad : pad = f1_0).
    { subst pad. rewrite (Hv ymin Hmin_in), (Hv ymax Hmax_in).
      rewrite (Hv ymin Hmin_in) in Hymin.
      rewrite (proj2 (feq_iff v v Hymin Hymin)); [reflexivity|].
      unfold key_eq. lia. }
    rewrite Hpad, (Hv ymin Hmin_in), (Hv ymax Hmax_in), Hy in Hup.
    rewrite Hup. reflexivity.
  - intros Hvalues.
    assert (Hlo : ymin = lit "0").
    { destruct (proj1 (Hvalues ymin) Hmin_in) as [H0|H10]; [exact H0|].
      assert (Hin0 : lit "0" ∈ d :: ds) by (apply Hvalues; left; reflexivity).
      specialize (Hmin_le _ Hin0). rewrite H10 in Hmin_le.
      vm_compute in Hmin_le. discriminate. }
    assert (Hhi : ymax = lit "10").
    { destruct (proj1 (Hvalues ymax) Hmax_in) as [H0|H10]; [|exact H10].
      assert (Hin10 : lit "10" ∈ d :: ds) by (apply Hvalues; right; reflexivity).
      specialize (Hmax_le _ Hin10). rewrite H0 in Hmax_le.
      vm_compute in Hmax_le. discriminate. }
    assert (Hpad : pad = lit "0.5").
    { subst pad. rewrite Hlo, Hhi. vm_compute. reflexivity. }
    rewrite Hpad, Hlo, Hhi in Hup.
    replace (_validate_converted_limits (fsub (lit "0") (lit "0.5"))
               (fadd (lit "10") (lit "0.5"))) with true in Hup
      by (vm_compute; reflexivity).
    rewrite Hup. cbn [state_of ylim set_ylim]. f_equal.
Qed.

(** The buffer of two samples, 0 then 10, that the statement of C6 is
    tried on. *)
Lemma ylim_is_padded_range_witness :
  let w := set__time [lit "1"; lit "2"]
             (set__data [lit "0"; lit "10"] (__init__ f0 0%nat)) in
  _data w <> [] /\
  last (_time w) = Some (lit "2") /\
  _validate_converted_limits
    (max0 (fsub (lit "2") f30)) (fadd (lit "2") f1_0) = true /\
  no_nan (_data w) /\
  exists ymin ymax pad,
    (ymin ∈ _data w /\ forall x, x ∈ _data w -> fle ymin x = true) /\
    (ymax ∈ _data w /\ forall x, x ∈ _data w -> fle x ymax = true) /\
    (all_equal (_data w) -> pad = f1_0) /\
    (~ all_equal (_data w) -> pad = fmul f0_05 (fsub ymax ymin)) /\
    (_validate_converted_limits (fsub ymin pad) (fadd ymax pad) = true ->
     exists w',
       _update_plot w = Returned w' /\
       ylim w' = Some (fsub ymin pad, fadd ymax pad)) /\
    (_validate_converted_limits (fsub ymin pad) (fadd ymax pad) = false ->
     exists w', _update_plot w = ValueError w' /\ ylim w' = ylim w) /\
    (forall v, (forall x, x ∈ _data w -> x = v) ->
       _validate_converted_limits (fsub v f1_0) (fadd v f1_0) = true ->
       ylim (state_of (_update_plot w)) = Some (fsub v f1_0, fadd v f1_0)) /\
    ((forall x, x ∈ _data w <-> x = lit "0" \/ x = lit "10") ->
       ylim (state_of (_update_plot w)) = Some (lit "-0.5", lit "10.5")).
Proof.
  intros w.
  assert (Hne : _data w <> []) by discriminate.
  assert (Hlast : last (_time w) = Some (lit "2")) by reflexivity.
  assert (Hx : _validate_converted_limits
                 (max0 (fsub (lit "2") f30)) (fadd (lit "2") f1_0) = true)
    by (vm_compute; reflexivity).
  assert (Hnn : no_nan (_data w)) by (repeat constructor).
  split; [exact Hne|]. split; [exact Hlast|]. split; [exact Hx|].
  split; [exact Hnn|].
  exact (ylim_is_padded_range w (lit "2") Hne Hlast Hx Hnn).
Defined.

(** C6, as stated, fails on buffers the reader fills.  After the line
    [b"nan\n"] the buffer holds one value, a NaN: [ymin == ymax] is false,
    the padding is a NaN, [set_ylim] raises [ValueError] and no y range is
    set.  After [b"1.0\n"] and [b"nan\n"] the values are not all equal,
    [min] and [max] both return [1.0], and the padding is [1.0], not
    [0.05 * (max - min)]: the range is [0, 2]. *)
Lemma nan_sample_breaks_the_y_range :
  let session lines :=
    exec f0 7
      ([ClickStart "COM1" (Some 9600%Z) f0;
        ReaderStep 0 (SerialReader.Open (Return tt));
        ReaderStep 0 (SerialReader.Flush (Return tt))]
       ++ flat_map (fun line =>
                      [ReaderStep 0 SerialReader.Head;
                       ReaderStep 0 (SerialReader.Read (Return line))]) lines
       ++ [TimerEvent 7 (fun _ => lit "1")]) in
  let one := session [b "nan" ++ [x0a]] in
  let two := session [b "1.0" ++ [x0a]; b "nan" ++ [x0a]] in
  (_data one = [S754_nan] /\
   ylim one = None /\
   exists w', _update_plot one = ValueError w' /\ ylim w' = None) /\
  (_data two = [lit "1.0"; S754_nan] /\
   feq (lit "1.0") S754_nan = false /\
   exists w', _update_plot two = Returned w' /\
              ylim w' = Some (lit "0", lit "2")).
Proof.
  split.
  - split; [vm_compute; reflexivity|].
    split; [vm_compute; reflexivity|].
    eexists. split; vm_compute; reflexivity.
  - split; [vm_compute; reflexivity|].
    split; [vm_compute; reflexivity|].
    eexists. split; vm_compute; reflexivity.
Qed.

(** [max(0, x)] is the greater of [0] and [x]. *)
Lemma max0_spec (x : float) :
  is_nan x = false ->
  fle f0 (max0 x) = true /\ fle x (max0 x) = true /\
  (max0 x = f0 \/ max0 x = x).
Proof.
  intros Hx. unfold max0.
  destruct (flt f0 x) eqn:Hlt.
  - split; [apply flt_fle; [reflexivity|assumption..]|].
    split; [apply fle_refl; assumption|right; reflexivity].
  - split; [reflexivity|].
    split; [apply not_flt_fle; [reflexivity|assumption..]|left; reflexivity].
Qed.

(** [max(0, x)] is never below [0] and never a NaN, whatever [x] is. *)
Lemma max0_not_below_zero (x : float) :
  fle f0 (max0 x) = true /\ is_nan (max0 x) = false.
Proof.
  unfold max0. destruct (flt f0 x) eqn:Hlt; [|split; reflexivity].
  destruct x as [s|s| |s m e]; try discriminate;
    destruct s; try discriminate; split; reflexivity.
Qed.

(** Limits that [set_xlim] accepts come from a finite latest timestamp. *)
Lemma accepted_xlim_latest_finite (latest : float) :
  _validate_converted_limits (max0 (fsub latest f30)) (fadd latest f1_0) = true ->
  is_finite latest = true.
Proof.
  unfold _validate_converted_limits. intros H.
  apply andb_true_iff in H as [_ H].
  destruct latest as [s|s| |s m e]; try reflexivity;
    try destruct s; discriminate H.
Qed.

(** C7: for a buffer that is not empty and whose latest elapsed time is
    [latest], finite as an elapsed time is and with both ends of the window
    finite, the redraw sets the x range to
    [max(0, latest - 30), latest + 1], whether or not [set_ylim] raises
    afterwards; the lower end is the greater of [0] and [latest - 30]:
    [15, 46] for 45 and [0, 6] for 5. *)
Theorem xlim_is_trailing_window (w : t) (latest : float) :
  _data w <> [] ->
  last (_time w) = Some latest ->
  _validate_converted_limits (max0 (fsub latest f30)) (fadd latest f1_0) = true ->
  is_finite latest = true /\
  xlim (state_of (_update_plot w))
    = Some (max0 (fsub latest f30), fadd latest f1_0) /\
  (is_nan (fsub latest f30) = false ->
   fle f0 (max0 (fsub latest f30)) = true /\
   fle (fsub latest f30) (max0 (fsub latest f30)) = true /\
   (max0 (fsub latest f30) = f0 \/ max0 (fsub latest f30) = fsub latest f30)) /\
  (latest = lit "45" ->
   xlim (state_of (_update_plot w)) = Some (lit "15", lit "46")) /\
  (latest = lit "5" ->
   xlim (state_of (_update_plot w)) = Some (lit "0", lit "6")).
Proof.
  intros Hne Hlast Hx.
  destruct (_data w) as [|d ds] eqn:Hdata; [contradiction|].
  pose proof (_update_plot_nonempty w d ds latest Hdata Hlast) as Hup.
  cbv zeta in Hup. rewrite Hx in Hup.
  assert (Hxlim : xlim (state_of (_update_plot w))
                  = Some (max0 (fsub latest f30), fadd latest f1_0)).
  { rewrite Hup.
    match goal with |- context [if ?c then _ else _] => destruct c end;
      reflexivity. }
  split; [exact (accepted_xlim_latest_finite latest Hx)|].
  split; [exact Hxlim|].
  split; [apply max0_spec|].
  split; intros ->; rewrite Hxlim; vm_compute; reflexivity.
Qed.

(** A buffer whose latest elapsed time is 45, for C7. *)
Lemma xlim_is_trailing_window_witness :
  let w := set__time [lit "44"; lit "45"]
             (set__data [lit "0"; lit "10"] (__init__ f0 0%nat)) in
  _data w <> [] /\
  last (_time w) = Some (lit "45") /\
  _validate_converted_limits
    (max0 (fsub (lit "45") f30)) (fadd (lit "45") f1_0) = true /\
  is_finite (lit "45") = true /\
  xlim (state_of (_update_plot w))
    = Some (max0 (fsub (lit "45") f30), fadd (lit "45") f1_0) /\
  (is_nan (fsub (lit "45") f30) = false ->
   fle f0 (max0 (fsub (lit "45") f30)) = true /\
   fle (fsub (lit "45") f30) (max0 (fsub (lit "45") f30)) = true /\
   (max0 (fsub (lit "45") f30) = f0 \/
    max0 (fsub (lit "45") f30) = fsub (lit "45") f30)) /\
  (lit "45" = lit "45" ->
   xlim (state_of (_update_plot w)) = Some (lit "15", lit "46")) /\
  (lit "45" = lit "5" ->
   xlim (state_of (_update_plot w)) = Some (lit "0", lit "6")).
Proof.
  intros w.
  assert (Hne : _data w <> []) by discriminate.
  assert (Hlast : last (_time w) = Some (lit "45")) by reflexivity.
  assert (Hx : _validate_converted_limits
                 (max0 (fsub (lit "45") f30)) (fadd (lit "45") f1_0) = true)
    by (vm_compute; reflexivity).
  split; [exact Hne|]. split; [exact Hlast|]. split; [exact Hx|].
  exact (xlim_is_trailing_window w (lit "45") Hne Hlast Hx).
Defined.

End Redraw.

(** * The window *)

Section Window.

Import SerialPlotter.

Lemma lookup_alter_Some {A} (f : A -> A) (l : list A) (i j : nat) (y : A) :
  alter f i l !! j = Some y ->
  (i = j /\ exists x, l !! j = Some x /\ y = f x) \/ (i <> j /\ l !! j = Some y).
Proof.
  destruct (decide (i = j)) as [->|Hne].
  - rewrite list_lookup_alter_eq. intros Hy. left. split; [reflexivity|].
    destruct (l !! j) as [x|]; [|discriminate].
    injection Hy as <-. exists x. split; reflexivity.
  - rewrite list_lookup_alter_ne by assumption. intros Hy. right.
    split; assumption.
Qed.

Lemma consistent_init (now : float) (timer : nat) :
  consistent (__init__ now timer).
Proof.
  constructor; cbn; try reflexivity.
  - constructor.
  - intros tid r Hr. discriminate.
  - intros tid Hr. discriminate.
Qed.

(** A message box changes nothing else. *)
Lemma consistent_boxes (v : list MessageBox) (w : t) :
  consistent w -> consistent (set_boxes v w).
Proof. intros []. constructor; assumption. Qed.

Lemma consistent_start (port : string) (baud : option Z) (now : float) (w : t) :
  consistent w -> _reader w = None ->
  consistent (_start_reading port baud now w).
Proof.
  intros Hw Hnone. unfold _start_reading.
  destruct port as [|c port]; [apply consistent_boxes, Hw|].
  destruct baud as [baud|]; [|apply consistent_boxes, Hw].
  destruct Hw. constructor; cbn; try assumption; try reflexivity.
  - apply Forall_app. split; [assumption|].
    constructor; [reflexivity|constructor].
  - intros tid r Hr Hstop.
    apply lookup_app_Some in Hr as [Hr|[Hge Hr]].
    + specialize (unstopped_is_current0 tid r Hr Hstop). congruence.
    + apply list_lookup_singleton_Some in Hr as [Htid _].
      f_equal. lia.
  - intros tid [= <-]. eexists. split.
    + rewrite lookup_app_r by reflexivity.
      rewrite Nat.sub_diag. reflexivity.
    + reflexivity.
Qed.

Lemma consistent_stop (w : t) : consistent w -> consistent (_stop_reading w).
Proof.
  intros []. unfold _stop_reading.
  destruct (_reader w) as [reader|] eqn:Hreader.
  - constructor; cbn; try assumption; try reflexivity.
    + apply Forall_forall. intros r Hr.
      apply list_elem_of_lookup in Hr as [tid Hr].
      apply lookup_alter_Some in Hr as [(_ & r0 & Hr0 & ->)|[_ Hr0]].
      * cbn. eapply (proj1 (Forall_forall _ _) readers_bound0).
        apply list_elem_of_lookup. eauto.
      * eapply (proj1 (Forall_forall _ _) readers_bound0).
        apply list_elem_of_lookup. eauto.
    + intros tid r Hr Hstop. exfalso.
      apply lookup_alter_Some in Hr as [(_ & r0 & Hr0 & ->)|[Hne Hr0]].
      * discriminate.
      * specialize (unstopped_is_current0 tid r Hr0 Hstop). congruence.
    + intros tid Hr. discriminate.
  - constructor; cbn; rewrite ?Hreader; try assumption; reflexivity.
Qed.

(** What [_stop_reading] leaves, attribute by attribute. *)
Lemma _stop_reading_effect (w : t) :
  let w' := _stop_reading w in
  readers w' =
    match _reader w with
    | Some reader => alter SerialReader.stop reader (readers w)
    | None => readers w
    end /\
  _reader w' = None /\ _start_btn w' = true /\ _stop_btn w' = false /\
  queues w' = queues w /\ _data_queue w' = _data_queue w /\
  _data w' = _data w /\ _time w' = _time w /\
  _start_time w' = _start_time w /\ _timer w' = _timer w /\
  boxes w' = boxes w /\ draw_idle w' = draw_idle w /\
  _line w' = _line w /\ xlim w' = xlim w /\ ylim w' = ylim w.
Proof.
  unfold _stop_reading.
  destruct (_reader w) eqn:Hreader; cbn; rewrite ?Hreader; repeat split.
Qed.

Lemma same_readers_stop (w1 w : t) :
  readers w1 = readers w -> _reader w1 = _reader w ->
  readers (_stop_reading w1) = readers (_stop_reading w).
Proof.
  intros Hr Hrd.
  destruct (_stop_reading_effect w1) as (-> & _).
  destruct (_stop_reading_effect w) as (-> & _).
  rewrite Hr, Hrd. reflexivity.
Qed.

Lemma stamps_S (clock : nat -> float) (start : float) (n : nat) :
  stamps clock start (S n)
  = fsub (clock 0%nat) start :: stamps (fun k => clock (S k)) start n.
Proof.
  unfold stamps. cbn [seq map]. f_equal.
  rewrite <- seq_shift, map_map. reflexivity.
Qed.

(** What the loop of [timerEvent] leaves, attribute by attribute: the queue
    is empty, a box was shown for each exception and a sample appended for
    each value, in the order of the queue, and [_stop_reading] has run if
    there was an exception. *)
Lemma drain_effect (items : list item) (clock : nat -> float) (w : t) :
  let w' := drain items clock w in
  queues w' =
    match items with
    | [] => queues w
    | _ => <[_data_queue w := []]> (queues w)
    end /\
  boxes w' = boxes w ++ map error_box (errors_of items) /\
  _data w' = _data w ++ values_of items /\
  _time w' =
    _time w ++ stamps clock (_start_time w) (length (values_of items)) /\
  match errors_of items with
  | [] =>
      readers w' = readers w /\ _reader w' = _reader w /\
      _start_btn w' = _start_btn w /\ _stop_btn w' = _stop_btn w
  | _ =>
      readers w' = readers (_stop_reading w) /\ _reader w' = None /\
      _start_btn w' = true /\ _stop_btn w' = false
  end /\
  _data_queue w' = _data_queue w /\ _start_time w' = _start_time w /\
  _timer w' = _timer w /\ draw_idle w' = draw_idle w /\
  _line w' = _line w /\ xlim w' = xlim w /\ ylim w' = ylim w.
Proof.
  revert clock w.
  induction items as [|i rest IH]; intros clock w.
  - cbn. rewrite !app_nil_r. repeat split.
  - destruct i as [value|exc]; cbn zeta; cbn [drain].
    + set (w1 := set__data _ (set__time _ (get rest w))).
      assert (Hw1 :
        queues w1 = <[_data_queue w := rest]> (queues w) /\
        boxes w1 = boxes w /\ _data w1 = _data w ++ [value] /\
        _time w1 = _time w ++ [fsub (clock 0%nat) (_start_time w)] /\
        readers w1 = readers w /\ _reader w1 = _reader w /\
        _start_btn w1 = _start_btn w /\ _stop_btn w1 = _stop_btn w /\
        _data_queue w1 = _data_queue w /\ _start_time w1 = _start_time w /\
        _timer w1 = _timer w /\ draw_idle w1 = draw_idle w /\
        _line w1 = _line w /\ xlim w1 = xlim w /\ ylim w1 = ylim w)
        by (repeat split).
      destruct Hw1 as (Wq & Wb & Wd & Wt & Wr & Wrd & Wsb & Wpb & Wdq & Wst
                       & Wtm & Wdi & Wl & Wx & Wy).
      pose proof (same_readers_stop w1 w Wr Wrd) as Wstop.
      clearbody w1.
      destruct (IH (fun k => clock (S k)) w1)
        as (Hq & Hb & Hd & Ht & Hr & Hdq & Hst & Htm & Hdi & Hl & Hx & Hy).
      cbn zeta in *.
      change (errors_of (Value value :: rest)) with (errors_of rest).
      change (values_of (Value value :: rest)) with (value :: values_of rest).
      rewrite Hq, Hb, Hd, Ht, Hdq, Hst, Htm, Hdi, Hl, Hx, Hy.
      rewrite Wq, Wb, Wd, Wt, Wdq, Wst, Wtm, Wdi, Wl, Wx, Wy.
      split; [|split; [|split; [|split; [|split]]]].
      * destruct rest; [reflexivity|]. apply list_insert_insert_eq.
      * reflexivity.
      * rewrite <- app_assoc. reflexivity.
      * rewrite <- app_assoc. cbn [length]. rewrite stamps_S. reflexivity.
      * destruct (errors_of rest);
          destruct Hr as (-> & -> & -> & ->); repeat split; assumption.
      * repeat split.
    + set (w0 := critical _ _ (get rest w)).
      assert (Hw0 :
        queues w0 = <[_data_queue w := rest]> (queues w) /\
        boxes w0 = boxes w ++ [error_box exc] /\ _data w0 = _data w /\
        _time w0 = _time w /\
        readers w0 = readers w /\ _reader w0 = _reader w /\
        _data_queue w0 = _data_queue w /\ _start_time w0 = _start_time w /\
        _timer w0 = _timer w /\ draw_idle w0 = draw_idle w /\
        _line w0 = _line w /\ xlim w0 = xlim w /\ ylim w0 = ylim w)
        by (repeat split).
      destruct Hw0 as (Wq & Wb & Wd & Wt & Wr & Wrd & Wdq & Wst
                       & Wtm & Wdi & Wl & Wx & Wy).
      pose proof (same_readers_stop w0 w Wr Wrd) as Wstop.
      destruct (_stop_reading_effect w0)
        as (_ & Srd & Ssb & Spb & Sq & Sdq & Sd & St & Sst & Stm & Sb & Sdi
            & Sl & Sx & Sy).
      cbn zeta in *.
      set (w1 := _stop_reading w0) in *.
      assert (Sstop : readers (_stop_reading w1) = readers w1).
      { destruct (_stop_reading_effect w1) as (Hr1 & _).
        cbn zeta in Hr1. rewrite Srd in Hr1. exact Hr1. }
      clearbody w1. clearbody w0.
      destruct (IH clock w1)
        as (Hq & Hb & Hd & Ht & Hr & Hdq & Hst & Htm & Hdi & Hl & Hx & Hy).
      cbn zeta in *.
      change (errors_of (Exc exc :: rest)) with (exc :: errors_of rest).
      change (values_of (Exc exc :: rest)) with (values_of rest).
      rewrite Hq, Hb, Hd, Ht, Hdq, Hst, Htm, Hdi, Hl, Hx, Hy.
      rewrite Sq, Sb, Sd, St, Sdq, Sst, Stm, Sdi, Sl, Sx, Sy.
      rewrite Wq, Wb, Wd, Wt, Wdq, Wst, Wtm, Wdi, Wl, Wx, Wy.
      split; [|split; [|split; [|split; [|split]]]].
      * destruct rest; [reflexivity|]. apply list_insert_insert_eq.
      * rewrite <- app_assoc. reflexivity.
      * reflexivity.
      * reflexivity.
      * rewrite <- Wstop.
        destruct (errors_of rest);
          destruct Hr as (-> & -> & -> & ->); repeat split; assumption.
      * repeat split.
Qed.

Lemma length_stamps (clock : nat -> float) (start : float) (n : nat) :
  length (stamps clock start n) = n.
Proof. unfold stamps. rewrite length_map. apply length_seq. Qed.

(** [consistent] looks at the buffers' lengths, the buttons, the reader,
    the threads and the queues' number only. *)
Lemma consistent_same (w w' : t) :
  consistent w ->
  length (_time w') = length (_data w') ->
  _start_btn w' = _start_btn w -> _stop_btn w' = _stop_btn w ->
  _reader w' = _reader w -> readers w' = readers w ->
  _data_queue w' = _data_queue w -> length (queues w') = length (queues w) ->
  consistent w'.
Proof.
  intros [] Hlen Hsb Hpb Hrd Hr Hdq Hq.
  constructor; rewrite ?Hsb, ?Hpb, ?Hrd, ?Hr, ?Hdq, ?Hq; assumption.
Qed.

Lemma consistent_drain (items : list item) (clock : nat -> float) (w : t) :
  consistent w -> consistent (drain items clock w).
Proof.
  intros Hw.
  destruct (drain_effect items clock w)
    as (Hq & _ & Hd & Ht & Hr & Hdq & _).
  cbn zeta in *.
  assert (Hlen : length (_time (drain items clock w))
                 = length (_data (drain items clock w))).
  { rewrite Hd, Ht, !length_app, length_stamps.
    rewrite (buffers_aligned w Hw). reflexivity. }
  assert (Hqlen : length (queues (drain items clock w)) = length (queues w)).
  { rewrite Hq. destruct items; [reflexivity|]. apply length_insert. }
  destruct (errors_of items).
  - destruct Hr as (Hr & Hrd & Hsb & Hpb).
    apply (consistent_same w); assumption.
  - destruct Hr as (Hr & Hrd & Hsb & Hpb).
    destruct (_stop_reading_effect w)
      as (_ & Srd & Ssb & Spb & Sq & Sdq & _).
    cbn zeta in *.
    apply (consistent_same (_stop_reading w)); try congruence.
    apply consistent_stop, Hw.
Qed.

Lemma consistent_timerEvent (timerId : nat) (clock : nat -> float) (w : t) :
  consistent w -> consistent (timerEvent timerId clock w).
Proof.
  intros Hw. unfold timerEvent.
  destruct (decide (timerId = _timer w)); [|exact Hw].
  set (w1 := drain _ clock w).
  assert (Hw1 : consistent w1) by apply consistent_drain, Hw.
  destruct (_data w1) eqn:Hdata; [exact Hw1|].
  apply (consistent_same w1); try reflexivity; [exact Hw1|].
  apply (buffers_aligned w1 Hw1).
Qed.

Lemma consistent_update_plot (w : t) :
  consistent w -> consistent (state_of (_update_plot w)).
Proof.
  intros Hw. destruct (state_of_update_plot w) as (l & x & y & ->).
  apply (consistent_same w); try reflexivity; [exact Hw|].
  apply (buffers_aligned w Hw).
Qed.

(** A step of a thread changes neither its queue nor its stop event. *)
Lemma reader_step_keeps (r : SerialReader.t) (ev : SerialReader.io) :
  SerialReader.data_queue (fst (SerialReader.step r ev)) = SerialReader.data_queue r /\
  SerialReader._stop_event (fst (SerialReader.step r ev)) = SerialReader._stop_event r.
Proof.
  unfold SerialReader.step.
  destruct (SerialReader.pc r); [| | | |split; reflexivity].
  - destruct ev as [[| |]| | |]; split; reflexivity.
  - destruct ev as [|[| |]| |]; split; reflexivity.
  - destruct ev as [| | |rl]; try (split; reflexivity).
    destruct (SerialReader._stop_event r) eqn:Hstop;
      split; cbn; try reflexivity; exact Hstop.
  - destruct ev as [| | |rl]; try (split; reflexivity).
    destruct (SerialReader.loop_body rl) as [puts []]; split; reflexivity.
Qed.

Lemma consistent_reader_step (tid : nat) (ev : SerialReader.io) (w : t) :
  consistent w -> consistent (reader_step tid ev w).
Proof.
  intros Hw. unfold reader_step.
  destruct (readers w !! tid) as [r|] eqn:Hr; [|exact Hw].
  pose proof (reader_step_keeps r ev) as [Hkq Hks].
  destruct (SerialReader.step r ev) as [r' puts]. cbn [fst] in *.
  destruct Hw. constructor; cbn; try assumption.
  - rewrite length_alter. assumption.
  - apply Forall_insert; [assumption|]. rewrite Hkq.
    eapply (proj1 (Forall_forall _ _) readers_bound0).
    apply list_elem_of_lookup. eauto.
  - intros tid' r0 Hr0 Hstop.
    apply list_lookup_insert_Some in Hr0 as [(-> & -> & _)|[Hne Hr0]].
    + apply (unstopped_is_current0 tid' r Hr). congruence.
    + apply (unstopped_is_current0 tid' r0 Hr0 Hstop).
  - intros tid' Hrd.
    destruct (current_is_unstopped0 tid' Hrd) as (r0 & Hr0 & Hstop).
    destruct (decide (tid = tid')) as [->|Hne].
    + exists r'. split.
      * apply list_lookup_insert_eq. eapply lookup_lt_Some, Hr.
      * congruence.
    + exists r0. split; [|exact Hstop].
      rewrite list_lookup_insert_ne by assumption. exact Hr0.
Qed.

Lemma consistent_step (w : t) (e : event) :
  consistent w -> consistent (step w e).
Proof.
  intros Hw. destruct e; cbn [step].
  - destruct (_start_btn w) eqn:Hsb; [|exact Hw].
    apply consistent_start; [exact Hw|].
    rewrite (start_btn_enabled w Hw) in Hsb.
    apply bool_decide_eq_true in Hsb. exact Hsb.
  - destruct (_stop_btn w); [apply consistent_stop, Hw|exact Hw].
  - apply consistent_timerEvent, Hw.
  - apply consistent_update_plot, Hw.
  - apply consistent_stop, Hw.
  - apply consistent_reader_step, Hw.
Qed.

Lemma exec_snoc (now : float) (timer : nat) (events : list event) (e : event) :
  exec now timer (events ++ [e]) = step (exec now timer events) e.
Proof. unfold exec. rewrite fold_left_app. reflexivity. Qed.

(** The window is consistent whatever has happened since its
    construction. *)
Lemma consistent_exec (now : float) (timer : nat) (events : list event) :
  consistent (exec now timer events).
Proof.
  induction events as [|e events IH] using rev_ind.
  - apply consistent_init.
  - rewrite exec_snoc. apply consistent_step, IH.
Qed.

(** Each handler and each step of a thread keeps the buffers aligned,
    from any state. *)
Lemma step_keeps_aligned (w : t) (e : event) :
  length (_time w) = length (_data w) ->
  length (_time (step w e)) = length (_data (step w e)).
Proof.
  intros Hlen. destruct e as [port baud now| |timerId clock| | |tid ev];
    cbn [step].
  - destruct (_start_btn w); [|exact Hlen]. unfold _start_reading.
    destruct port; [exact Hlen|]. destruct baud; [reflexivity|exact Hlen].
  - destruct (_stop_btn w); [|exact Hlen].
    destruct (_stop_reading_effect w) as (_ & _ & _ & _ & _ & _ & Hd & Ht & _).
    cbn zeta in *. congruence.
  - unfold timerEvent. destruct (decide (timerId = _timer w)); [|exact Hlen].
    set (w1 := drain _ clock w).
    assert (Hw1 : length (_time w1) = length (_data w1)).
    { destruct (drain_effect (default [] (queues w !! _data_queue w)) clock w)
        as (_ & _ & Hd & Ht & _).
      cbn zeta in *. subst w1.
      rewrite Hd, Ht, !length_app, length_stamps, Hlen. reflexivity. }
    destruct (_data w1) eqn:Hdata; cbn; rewrite Hdata; exact Hw1.
  - destruct (state_of_update_plot w) as (l & x & y & ->). exact Hlen.
  - destruct (_stop_reading_effect w) as (_ & _ & _ & _ & _ & _ & Hd & Ht & _).
    unfold closeEvent. cbn zeta in *. congruence.
  - unfold reader_step. destruct (readers w !! tid); [|exact Hlen].
    destruct (SerialReader.step t0 ev). exact Hlen.
Qed.

(** C10: whatever has happened since the window was constructed (starts
    and stops, timer events, redraws that return or raise, steps of the
    threads), [_time] and [_data] have the same length; so the redraw,
    which takes the last timestamp of a buffer with a value, never ends in
    an [IndexError]. *)
Theorem buffers_have_equal_length
    (now : float) (timer : nat) (events : list event) :
  length (_time (exec now timer events)) = length (_data (exec now timer events)) /\
  forall w', _update_plot (exec now timer events) <> IndexError w'.
Proof.
  assert (Hlen : length (_time (exec now timer events))
                 = length (_data (exec now timer events))).
  { induction events as [|e events IH] using rev_ind; [reflexivity|].
    rewrite exec_snoc. apply step_keeps_aligned, IH. }
  split; [exact Hlen|].
  intros w'. apply _update_plot_no_IndexError, Hlen.
Qed.

(** C8: from any state, a start that passes the checks of the port and of
    the baud rate leaves both buffers empty and [_start_time] at the time
    of the start; the new reader is the one [_reader] names. *)
Theorem start_resets_the_buffer
    (w : t) (port : string) (baud : Z) (now : float) :
  port <> EmptyString ->
  _data (_start_reading port (Some baud) now w) = [] /\
  _time (_start_reading port (Some baud) now w) = [] /\
  _start_time (_start_reading port (Some baud) now w) = now /\
  _reader (_start_reading port (Some baud) now w) = Some (length (readers w)).
Proof.
  intros Hport. unfold _start_reading.
  destruct port; [contradiction|]. repeat split.
Qed.

(** A start after an earlier session left a sample in the buffer, for C8. *)
Lemma start_resets_the_buffer_witness :
  let w := set__time [lit "0.5"] (set__data [lit "1.0"] (__init__ f0 0%nat)) in
  "COM1" <> EmptyString /\
  _data (_start_reading "COM1" (Some 9600) (lit "100") w) = [] /\
  _time (_start_reading "COM1" (Some 9600) (lit "100") w) = [] /\
  _start_time (_start_reading "COM1" (Some 9600) (lit "100") w) = lit "100" /\
  _reader (_start_reading "COM1" (Some 9600) (lit "100") w) = Some (length (readers w)).
Proof.
  intros w.
  split; [discriminate|].
  apply (start_resets_the_buffer w "COM1" 9600 (lit "100")). discriminate.
Defined.

(** C9: [_stop_reading] twice is [_stop_reading] once, from any state; and
    when there is no reader it changes nothing in a window as the events
    leave it. *)
Theorem stop_is_idempotent (now : float) (timer : nat) (events : list event) :
  (forall w, _stop_reading (_stop_reading w) = _stop_reading w) /\
  (_reader (exec now timer events) = None ->
   _stop_reading (exec now timer events) = exec now timer events).
Proof.
  split.
  - intros w. unfold _stop_reading at 1.
    destruct (_stop_reading_effect w) as (_ & -> & Hsb & Hpb & _).
    cbn zeta in *. destruct (_stop_reading w). cbn in *. subst. reflexivity.
  - intros Hnone.
    pose proof (consistent_exec now timer events) as Hw.
    pose proof (start_btn_enabled _ Hw) as Hsb.
    pose proof (stop_btn_enabled _ Hw) as Hpb.
    rewrite Hnone in Hsb. cbn in Hsb. rewrite Hsb in Hpb. cbn in Hpb.
    unfold _stop_reading. rewrite Hnone.
    destruct (exec now timer events). cbn in *. subst. reflexivity.
Qed.

(** [_stop_reading] on the window just constructed, for C9. *)
Lemma stop_is_idempotent_witness :
  _reader (exec f0 0%nat []) = None /\
  _stop_reading (exec f0 0%nat []) = exec f0 0%nat [].
Proof.
  split; [reflexivity|].
  apply (proj2 (stop_is_idempotent f0 0%nat [])). reflexivity.
Defined.

(** C2, as the code has it: there is one queue, the one [__init__] made;
    every reader ever constructed puts on it, and a start makes no other
    queue. *)
Theorem readers_share_the_queue
    (now : float) (timer : nat) (events : list event) :
  length (queues (exec now timer events)) = 1%nat /\
  _data_queue (exec now timer events) = 0%nat /\
  Forall (fun r => SerialReader.data_queue r = _data_queue (exec now timer events))
    (readers (exec now timer events)) /\
  forall port baud t,
    length (queues (_start_reading port baud t (exec now timer events)))
      = 1%nat /\
    _data_queue (_start_reading port baud t (exec now timer events))
      = _data_queue (exec now timer events).
Proof.
  pose proof (consistent_exec now timer events) as [].
  split; [assumption|]. split; [assumption|]. split; [assumption|].
  intros p baud t. unfold _start_reading.
  destruct p; [|destruct baud]; split; cbn; try assumption; reflexivity.
Qed.

(** C2, as stated, fails: a first session's thread reads [b"1.0\n"] and
    the session is stopped before a timer event; the reader of the second
    session is given the queue of the first, which still holds the sample,
    and before this reader has done anything the next timer event appends
    the sample to the buffer of the second session. *)
Lemma stale_sample_reaches_next_session :
  let first :=
    [ClickStart "COM1" (Some 9600) f0;
     ReaderStep 0 (SerialReader.Open (Return ()));
     ReaderStep 0 (SerialReader.Flush (Return ()));
     ReaderStep 0 SerialReader.Head;
     ReaderStep 0 (SerialReader.Read (Return (b "1.0" ++ [x0a])));
     ClickStop] in
  let w := exec f0 7%nat (first ++ [ClickStart "COM1" (Some 9600) (lit "100")]) in
  _reader w = Some 1%nat /\
  SerialReader.data_queue <$> readers w !! 1%nat
    = SerialReader.data_queue <$> readers w !! 0%nat /\
  queues w !! 0%nat = Some [Value (lit "1.0")] /\
  SerialReader.pc <$> readers w !! 1%nat = Some SerialReader.AtOpen /\
  _data w = [] /\
  _data (step w (TimerEvent 7%nat (fun _ => lit "101"))) = [lit "1.0"].
Proof. vm_compute. repeat split. Qed.

(** In a list where two items that satisfy [P] are at the same place, at
    most one item satisfies [P]. *)
Lemma length_filter_unique {A} (P : A -> Prop) `{!forall x, Decision (P x)}
    (l : list A) :
  (forall i j x y, l !! i = Some x -> l !! j = Some y -> P x -> P y -> i = j) ->
  (length (filter P l) <= 1)%nat.
Proof.
  induction l as [|a l IH]; intros Huniq; [cbn; lia|].
  rewrite filter_cons. destruct (decide (P a)) as [Ha|Ha].
  - destruct (filter P l) as [|y ys] eqn:Hf; [cbn; lia|].
    assert (Hy : y ∈ filter P l) by (rewrite Hf; left).
    apply list_elem_of_filter in Hy as [HPy Hy].
    apply list_elem_of_lookup in Hy as [j Hj].
    specialize (Huniq 0%nat (S j) a y eq_refl Hj Ha HPy). discriminate.
  - apply IH. intros i j x y Hi Hj HPx HPy.
    specialize (Huniq (S i) (S j) x y Hi Hj HPx HPy). lia.
Qed.

(** C3, as the code has it: the guard is the Start button, which is
    enabled exactly when there is no reader.  So, whatever has happened, at
    most one reader has not been asked to stop, it is the one [_reader]
    names, and a click on Start while there is a reader changes nothing. *)
Theorem one_reader_not_stopped
    (now : float) (timer : nat) (events : list event) :
  (length (unstopped (exec now timer events)) <= 1)%nat /\
  (forall tid r,
     readers (exec now timer events) !! tid = Some r ->
     SerialReader._stop_event r = false ->
     _reader (exec now timer events) = Some tid) /\
  _start_btn (exec now timer events)
    = bool_decide (_reader (exec now timer events) = None) /\
  (forall port baud t,
     _reader (exec now timer events) <> None ->
     step (exec now timer events) (ClickStart port baud t)
       = exec now timer events).
Proof.
  pose proof (consistent_exec now timer events) as Hw.
  split; [|split; [|split]].
  - apply length_filter_unique. intros i j x y Hi Hj Hx Hy.
    pose proof (unstopped_is_current _ Hw i x Hi Hx) as Hri.
    pose proof (unstopped_is_current _ Hw j y Hj Hy) as Hrj.
    congruence.
  - apply (unstopped_is_current _ Hw).
  - apply (start_btn_enabled _ Hw).
  - intros port baud t Hsome. cbn [step].
    rewrite (start_btn_enabled _ Hw).
    rewrite bool_decide_eq_false_2 by exact Hsome. reflexivity.
Qed.

(** A click on Start during the first session, for C3. *)
Lemma one_reader_not_stopped_witness :
  let w := exec f0 7%nat [ClickStart "COM1" (Some 9600) f0] in
  _reader w <> None /\
  step w (ClickStart "COM2" (Some 115200) (lit "5")) = w.
Proof.
  intros w. split; [discriminate|].
  apply (proj2 (proj2 (proj2
           (one_reader_not_stopped f0 7%nat [ClickStart "COM1" (Some 9600) f0])))).
  discriminate.
Defined.

(** The method [_start_reading] has no guard of its own: applied to a
    window that has a reader, which no click does since Start is disabled
    then, it makes a second reader and asks neither to stop. *)
Lemma _start_reading_has_no_guard :
  let w := exec f0 7%nat [ClickStart "COM1" (Some 9600) f0] in
  _reader w = Some 0%nat /\
  _start_reading "COM1" (Some 9600) (lit "5") w <> w /\
  length (alive (_start_reading "COM1" (Some 9600) (lit "5") w)) = 2%nat /\
  length (unstopped (_start_reading "COM1" (Some 9600) (lit "5") w)) = 2%nat.
Proof.
  cbn zeta. split; [reflexivity|]. split; [|split; reflexivity].
  intros Heq. apply (f_equal _reader) in Heq. vm_compute in Heq. discriminate.
Qed.

(** The end of [timerEvent], [if self._data: self._canvas.draw_idle()],
    changes nothing but the count of the calls of [draw_idle]. *)
Lemma redraw_request_effect (w : t) :
  let w' := match _data w with
            | [] => w
            | _ => set_draw_idle (S (draw_idle w)) w
            end in
  queues w' = queues w /\ boxes w' = boxes w /\ _data w' = _data w /\
  _time w' = _time w /\ readers w' = readers w /\ _reader w' = _reader w /\
  _start_btn w' = _start_btn w /\ _stop_btn w' = _stop_btn w.
Proof.
  cbn zeta. destruct (_data w) eqn:Hdata; cbn; rewrite ?Hdata; repeat split.
Qed.

(** C3, as stated, fails: there can be two live readers.  A reader that
    was asked to stop need not have returned when the next one is started,
    since [join(timeout=1.0)] gives up after a second.  After a click on
    Start, one on Stop and one on Start again, with the first thread still
    in [Serial(...)], two threads are alive, one of them not asked to
    stop. *)
Lemma stopped_reader_still_alive :
  let w := exec f0 7%nat
             [ClickStart "COM1" (Some 9600) f0; ClickStop;
              ClickStart "COM1" (Some 9600) (lit "2")] in
  _start_btn (exec f0 7%nat [ClickStart "COM1" (Some 9600) f0; ClickStop]) = true /\
  SerialReader.pc <$> readers w !! 0%nat = Some SerialReader.AtOpen /\
  length (alive w) = 2%nat /\ length (unstopped w) = 1%nat.
Proof. repeat split. Qed.

(** C4: a timer event that finds in the queue a batch with an exception
    empties the queue; it shows one box for each exception of the batch,
    that one included, appends one sample for each value of the batch, before
    the exception or after it, in the order of the queue, and runs
    [_stop_reading]: there is no reader any more, Start is enabled and Stop
    is not. *)
Theorem timerEvent_consumes_the_batch
    (w : t) (before after : list item) (exc : SerialException)
    (clock : nat -> float) :
  queues w !! _data_queue w = Some (before ++ Exc exc :: after) ->
  queues (timerEvent (_timer w) clock w) !! _data_queue w = Some [] /\
  boxes (timerEvent (_timer w) clock w)
    = boxes w ++ map error_box (errors_of before) ++ [error_box exc]
        ++ map error_box (errors_of after) /\
  _data (timerEvent (_timer w) clock w)
    = _data w ++ values_of before ++ values_of after /\
  _time (timerEvent (_timer w) clock w)
    = _time w ++ stamps clock (_start_time w)
                   (length (values_of before ++ values_of after)) /\
  readers (timerEvent (_timer w) clock w) = readers (_stop_reading w) /\
  _reader (timerEvent (_timer w) clock w) = None /\
  _start_btn (timerEvent (_timer w) clock w) = true /\
  _stop_btn (timerEvent (_timer w) clock w) = false.
Proof.
  intros Hq. unfold timerEvent.
  destruct (decide (_timer w = _timer w)) as [_|Hne]; [|contradiction].
  rewrite Hq.
  change (default [] (Some (before ++ Exc exc :: after)))
    with (before ++ Exc exc :: after).
  cbn zeta.
  destruct (drain_effect (before ++ Exc exc :: after) clock w)
    as (Dq & Db & Dd & Dt & Dr & Ddq & _).
  cbn zeta in *.
  set (w1 := drain (before ++ Exc exc :: after) clock w) in *.
  assert (Herr : errors_of (before ++ Exc exc :: after)
                 = errors_of before ++ exc :: errors_of after)
    by (unfold errors_of; rewrite omap_app; reflexivity).
  assert (Hval : values_of (before ++ Exc exc :: after)
                 = values_of before ++ values_of after)
    by (unfold values_of; rewrite omap_app; reflexivity).
  rewrite Herr in Db, Dr. rewrite Hval in Dd, Dt.
  assert (Dq' : queues w1 = <[_data_queue w := []]> (queues w))
    by (rewrite Dq; destruct before; reflexivity).
  assert (Dr' : readers w1 = readers (_stop_reading w) /\ _reader w1 = None /\
                _start_btn w1 = true /\ _stop_btn w1 = false)
    by (destruct (errors_of before); exact Dr).
  destruct Dr' as (Dr1 & Dr2 & Dr3 & Dr4).
  assert (Hgoal :
    queues w1 !! _data_queue w = Some [] /\
    boxes w1 = boxes w ++ map error_box (errors_of before) ++ [error_box exc]
                 ++ map error_box (errors_of after) /\
    _data w1 = _data w ++ values_of before ++ values_of after /\
    _time w1 = _time w ++ stamps clock (_start_time w)
                 (length (values_of before ++ values_of after)) /\
    readers w1 = readers (_stop_reading w) /\ _reader w1 = None /\
    _start_btn w1 = true /\ _stop_btn w1 = false).
  { split; [|split; [|repeat split; assumption]].
    - rewrite Dq'. apply list_lookup_insert_eq. eapply lookup_lt_Some, Hq.
    - rewrite Db, map_app. reflexivity. }
  destruct (redraw_request_effect w1)
    as (-> & -> & -> & -> & -> & -> & -> & ->).
  exact Hgoal.
Qed.

(** A batch of a value and an exception, found by a timer event during a
    session, for C4. *)
Lemma timerEvent_consumes_the_batch_witness :
  let exc := {| strerror := "device disconnected" |} in
  let w :=
    exec f0 7%nat
      [ClickStart "COM1" (Some 9600) f0;
       ReaderStep 0 (SerialReader.Open (Return ()));
       ReaderStep 0 (SerialReader.Flush (Return ()));
       ReaderStep 0 SerialReader.Head;
       ReaderStep 0 (SerialReader.Read (Return (b "1.0" ++ [x0a])));
       ReaderStep 0 SerialReader.Head;
       ReaderStep 0 (SerialReader.Read (Raise exc))] in
  let clock := fun _ : nat => lit "3" in
  queues w !! _data_queue w = Some ([Value (lit "1.0")] ++ Exc exc :: []) /\
  queues (timerEvent (_timer w) clock w) !! _data_queue w = Some [] /\
  boxes (timerEvent (_timer w) clock w) = boxes w ++ [error_box exc] /\
  _data (timerEvent (_timer w) clock w) = _data w ++ [lit "1.0"] /\
  _reader (timerEvent (_timer w) clock w) = None.
Proof.
  intros exc w clock.
  assert (Hq : queues w !! _data_queue w = Some ([Value (lit "1.0")] ++ Exc exc :: []))
    by reflexivity.
  split; [exact Hq|].
  destruct (timerEvent_consumes_the_batch w [Value (lit "1.0")] [] exc clock Hq)
    as (H1 & H2 & H3 & _ & _ & H6 & _).
  repeat split; assumption.
Defined.

End Window.

(** * More about the reader *)

Section ReaderMore.

Import SerialReader.

(** A read that times out puts nothing and the loop goes on: what is put
    is the same with the timed-out passes left out of the script. *)
Theorem timeouts_put_nothing (script : list observation) :
  while_loop (filter (fun o => is_timeout o = false) script)
  = while_loop script.
Proof.
  induction script as [|o script IH]; [reflexivity|].
  rewrite filter_cons.
  destruct (decide (is_timeout o = false)) as [Hno|Hyes].
  - destruct o as [|r]; [reflexivity|].
    cbn [while_loop]. rewrite IH. reflexivity.
  - destruct o as [|[[|c line]|exc|]]; try (exfalso; apply Hyes; reflexivity).
    cbn [while_loop loop_body app]. exact IH.
Qed.

Lemma lstrip_spaces (ws : bytes) :
  Forall (fun c => is_space c = true) ws -> lstrip ws = [].
Proof.
  induction 1 as [|c ws Hc _ IH]; [reflexivity|].
  cbn [lstrip]. rewrite Hc. exact IH.
Qed.

Lemma lstrip_spaces_app (ws s : bytes) :
  Forall (fun c => is_space c = true) ws -> lstrip (ws ++ s) = lstrip s.
Proof.
  induction 1 as [|c ws Hc _ IH]; [reflexivity|].
  cbn [app lstrip]. rewrite Hc. exact IH.
Qed.

Lemma rstrip_app_spaces (s ws : bytes) :
  Forall (fun c => is_space c = true) ws -> rstrip (s ++ ws) = rstrip s.
Proof.
  intros Hws. unfold rstrip. rewrite rev_app_distr.
  rewrite lstrip_spaces_app; [reflexivity|].
  apply Forall_rev. exact Hws.
Qed.

Lemma strip_app_spaces (s ws : bytes) :
  Forall (fun c => is_space c = true) ws -> strip (s ++ ws) = strip s.
Proof.
  intros Hws. unfold strip.
  induction s as [|c s IH].
  - cbn [app]. rewrite (lstrip_spaces ws Hws). reflexivity.
  - cbn [app lstrip]. destruct (is_space c); [exact IH|].
    apply (rstrip_app_spaces (c :: s) ws Hws).
Qed.

(** White space around a line, the line terminator included, does not
    change what the line puts on the queue; a line of white space only
    puts nothing. *)
Theorem surrounding_space_is_ignored (ws1 line ws2 : bytes) :
  Forall (fun c => is_space c = true) ws1 ->
  Forall (fun c => is_space c = true) ws2 ->
  loop_body (Return (ws1 ++ line ++ ws2)) = loop_body (Return line) /\
  loop_body (Return (ws1 ++ ws2)) = ([], Continue).
Proof.
  intros H1 H2.
  assert (Hstrip : forall l, strip (ws1 ++ l ++ ws2) = strip l).
  { intros l. rewrite app_assoc, strip_app_spaces by exact H2.
    unfold strip. rewrite lstrip_spaces_app by exact H1. reflexivity. }
  split.
  - rewrite !loop_body_line. unfold sample_of. rewrite Hstrip. reflexivity.
  - rewrite loop_body_line. unfold sample_of.
    specialize (Hstrip []). cbn [app] in Hstrip. rewrite Hstrip. reflexivity.
Qed.

(** A line with a carriage return and a line feed, for
    [surrounding_space_is_ignored]. *)
Lemma surrounding_space_is_ignored_witness :
  Forall (fun c => is_space c = true) [x20] /\
  Forall (fun c => is_space c = true) [x0d; x0a] /\
  loop_body (Return ([x20] ++ b "2.5" ++ [x0d; x0a])) = loop_body (Return (b "2.5")) /\
  loop_body (Return ([x20] ++ [x0d; x0a])) = ([], Continue).
Proof.
  assert (H1 : Forall (fun c => is_space c = true) [x20])
    by (repeat constructor).
  assert (H2 : Forall (fun c => is_space c = true) [x0d; x0a])
    by (repeat constructor).
  split; [exact H1|]. split; [exact H2|].
  exact (surrounding_space_is_ignored [x20] (b "2.5") [x0d; x0a] H1 H2).
Defined.

(** The loop ends where the stop event is found set, where [readline]
    raises [SerialException] and where it raises anything else: what the
    script holds after that pass has no effect on what is put. *)
Theorem nothing_after_the_loop_ends
    (before rest : list observation) (exc : SerialException) :
  while_loop (before ++ StopSet :: rest) = while_loop before /\
  while_loop (before ++ Readline (Raise exc) :: rest)
    = while_loop (before ++ [Readline (Raise exc)]) /\
  while_loop (before ++ Readline RaiseOther :: rest) = while_loop before.
Proof.
  induction before as [|o before (IH1 & IH2 & IH3)].
  - repeat split.
  - destruct o as [|r]; [repeat split|].
    cbn [app while_loop]. destruct (loop_body r) as [puts []];
      rewrite ?IH1, ?IH2, ?IH3; repeat split.
Qed.

(** Once its stop event is set, a thread that is past [Serial(...)] and
    not inside a pass of the loop puts nothing more, whatever the port
    does: the next test at the head of the loop ends the loop. *)
Lemma stopped_outside_pass_puts_nothing (r : t) (evs : list io) :
  _stop_event r = true -> pc r <> AtOpen -> pc r <> InReadline ->
  snd (reader_steps r evs) = [].
Proof.
  revert r.
  induction evs as [|ev evs IH]; intros r Hstop Hopen Hread; [reflexivity|].
  assert (Hstay : snd (let '(r2, puts2) := reader_steps r evs in
                       (r2, [] ++ puts2)) = []).
  { specialize (IH r Hstop Hopen Hread).
    destruct (reader_steps r evs). exact IH. }
  rewrite reader_steps_cons. unfold step.
  destruct (pc r) eqn:Hr; [contradiction| | |contradiction|exact Hstay].
  - destruct ev as [o|[[]| |]| |rl]; try exact Hstay.
    + specialize (IH (goto InLoop r) Hstop).
      destruct (reader_steps (goto InLoop r) evs). cbn [snd] in *.
      apply IH; discriminate.
    + rewrite finished_puts_nothing by reflexivity. reflexivity.
    + rewrite finished_puts_nothing by reflexivity. reflexivity.
  - destruct ev as [o|o| |rl]; try exact Hstay.
    rewrite Hstop. rewrite finished_puts_nothing by reflexivity. reflexivity.
Qed.

(** A pass puts at most one item. *)
Lemma loop_body_puts_at_most_one (rl : result bytes) :
  (length (fst (loop_body rl)) <= 1)%nat.
Proof.
  destruct rl as [line|exc|]; cbn; [|lia..].
  destruct line; [cbn; lia|].
  destruct (float_of_bytes _); cbn; lia.
Qed.

(** A thread whose stop event is set while it waits in [readline] finishes
    the pass: it puts what the pass puts, and nothing after it. *)
Lemma stopped_in_pass_finishes_it (r : t) (rl : result bytes) (evs : list io) :
  _stop_event r = true -> pc r = InReadline ->
  snd (reader_steps r (Read rl :: evs)) = fst (loop_body rl).
Proof.
  intros Hstop Hpc. rewrite reader_steps_cons. unfold step. rewrite Hpc.
  destruct (loop_body rl) as [puts []]; cbn [fst].
  - pose proof (stopped_outside_pass_puts_nothing (goto InLoop r) evs Hstop)
      as Hnone.
    destruct (reader_steps (goto InLoop r) evs). cbn [snd] in *.
    rewrite Hnone by discriminate. apply app_nil_r.
  - rewrite finished_puts_nothing by reflexivity. apply app_nil_r.
  - rewrite finished_puts_nothing by reflexivity. apply app_nil_r.
Qed.

(** A stop request takes effect at the next test at the head of the loop.
    From then on a thread whose stop event is set puts at most one more
    item, whatever the port does: the item of the pass it is in when the
    event is set, which it finishes as if nothing had happened, or the
    exception of a [Serial(...)] that fails, since [run] looks at the event
    only after the port is open.  Between the open and the loop, and at
    the head of the loop, it puts nothing more. *)
Theorem stopped_reader_puts_at_most_one_item (r : t) (evs : list io) :
  _stop_event r = true ->
  (length (snd (reader_steps r evs)) <= 1)%nat /\
  (pc r <> InReadline -> values_of (snd (reader_steps r evs)) = []) /\
  (pc r <> AtOpen -> pc r <> InReadline -> snd (reader_steps r evs) = []) /\
  (pc r = InReadline ->
   forall rl rest, snd (reader_steps r (Read rl :: rest)) = fst (loop_body rl)).
Proof.
  intros Hstop.
  assert (Hpos : pc r = AtOpen \/ pc r = InReadline \/
                 (pc r <> AtOpen /\ pc r <> InReadline)).
  { destruct (pc r); [left; reflexivity|right; right; split; discriminate..
                     |right; left; reflexivity|right; right; split; discriminate]. }
  assert (Hmain : (length (snd (reader_steps r evs)) <= 1)%nat /\
                  (pc r <> InReadline ->
                   values_of (snd (reader_steps r evs)) = [])).
  { destruct Hpos as [Hpc|[Hpc|[Hopen Hread]]].
    - assert (Hopen : (length (snd (reader_steps r evs)) <= 1)%nat /\
                      values_of (snd (reader_steps r evs)) = []).
      { induction evs as [|ev evs IH]; [cbn; split; [lia|reflexivity]|].
        rewrite reader_steps_cons. unfold step. rewrite Hpc.
        destruct ev as [[[]|exc|]|o| |rl].
        + pose proof (stopped_outside_pass_puts_nothing
                        (goto AtFlush r) evs Hstop) as Hnone.
          destruct (reader_steps (goto AtFlush r) evs). cbn [snd] in *.
          rewrite Hnone by discriminate. cbn. split; [lia|reflexivity].
        + rewrite finished_puts_nothing by reflexivity. cbn.
          split; [lia|reflexivity].
        + rewrite finished_puts_nothing by reflexivity. cbn.
          split; [lia|reflexivity].
        + destruct (reader_steps r evs). exact IH.
        + destruct (reader_steps r evs). exact IH.
        + destruct (reader_steps r evs). exact IH. }
      destruct Hopen as [Hl Hv]. split; [exact Hl|intros _; exact Hv].
    - split; [|intros Hno; contradiction].
      induction evs as [|ev evs IH]; [cbn; lia|].
      destruct ev as [o|o| |rl];
        try (rewrite reader_steps_cons; unfold step; rewrite Hpc;
             destruct (reader_steps r evs); exact IH).
      rewrite stopped_in_pass_finishes_it by assumption.
      apply loop_body_puts_at_most_one.
    - rewrite stopped_outside_pass_puts_nothing by assumption.
      cbn. split; [lia|reflexivity]. }
  destruct Hmain as [Hl Hv]. split; [exact Hl|]. split; [exact Hv|].
  split.
  - apply stopped_outside_pass_puts_nothing. exact Hstop.
  - intros Hpc rl rest. apply stopped_in_pass_finishes_it; assumption.
Qed.

(** A thread stopped while it waits in [readline]: the line that arrives
    is still put, the next one is not. *)
Lemma stopped_reader_puts_at_most_one_item_witness :
  let r := stop (goto InReadline (__init__ (mkSerialConfig "COM1" 9600) 0%nat)) in
  let evs := [Read (Return (b "1.0" ++ [x0a])); Head;
              Read (Return (b "2.0" ++ [x0a]))] in
  _stop_event r = true /\
  snd (reader_steps r evs) = [Value (lit "1.0")] /\
  (length (snd (reader_steps r evs)) <= 1)%nat /\
  (pc r <> InReadline -> values_of (snd (reader_steps r evs)) = []) /\
  (pc r <> AtOpen -> pc r <> InReadline -> snd (reader_steps r evs) = []) /\
  (pc r = InReadline ->
   forall rl rest, snd (reader_steps r (Read rl :: rest)) = fst (loop_body rl)).
Proof.
  intros r evs. split; [reflexivity|]. split; [reflexivity|].
  exact (stopped_reader_puts_at_most_one_item r evs eq_refl).
Defined.

Lemma step_moves_forward (r : t) (ev : io) :
  (position_rank (pc r) <= position_rank (pc (fst (step r ev))))%nat /\
  config (fst (step r ev)) = config r /\
  data_queue (fst (step r ev)) = data_queue r /\
  _stop_event (fst (step r ev)) = _stop_event r.
Proof.
  unfold step. destruct (pc r) eqn:Hpc.
  - destruct ev as [[[]| |]| | |]; cbn; rewrite ?Hpc; cbn; repeat split; lia.
  - destruct ev as [|[[]| |]| |]; cbn; rewrite ?Hpc; cbn; repeat split; lia.
  - destruct ev as [| | |rl];
      try (cbn; rewrite ?Hpc; cbn; repeat split; lia).
    destruct (_stop_event r) eqn:Hstop;
      cbn; rewrite ?Hstop; repeat split; lia.
  - destruct ev as [| | |rl];
      try (cbn; rewrite ?Hpc; cbn; repeat split; lia).
    destruct (loop_body rl) as [puts []];
      cbn; rewrite ?Hpc; cbn; repeat split; lia.
  - cbn. rewrite Hpc. cbn. repeat split. lia.
Qed.

(** A thread only moves forward in [run], from [Serial(...)] to
    [flushInput()], to the loop and out of it: it never opens its port
    again and, once it has left [run], stays there.  Its configuration,
    its queue and its stop event are not changed by its own steps. *)
Theorem reader_only_moves_forward (r : t) (evs : list io) :
  (position_rank (pc r) <= position_rank (pc (fst (reader_steps r evs))))%nat /\
  config (fst (reader_steps r evs)) = config r /\
  data_queue (fst (reader_steps r evs)) = data_queue r /\
  _stop_event (fst (reader_steps r evs)) = _stop_event r.
Proof.
  revert r. induction evs as [|ev evs IH]; intros r.
  - cbn. repeat split. lia.
  - rewrite reader_steps_cons.
    pose proof (step_moves_forward r ev) as Hstep.
    destruct (step r ev) as [r1 puts1]. cbn [fst] in Hstep.
    specialize (IH r1).
    destruct (reader_steps r1 evs) as [r2 puts2]. cbn [fst] in *.
    destruct Hstep as (S1 & S2 & S3 & S4). destruct IH as (I1 & I2 & I3 & I4).
    repeat split; try congruence. lia.
Qed.

Lemma loop_calls_reads (is_open : bool) (lines : list bytes)
    (rest : list observation) :
  loop_calls is_open (reads lines ++ rest)
  = repeat CallReadline (length lines) ++ loop_calls is_open rest.
Proof.
  induction lines as [|line lines IH]; [reflexivity|].
  cbn [reads map app loop_calls length repeat].
  rewrite loop_body_line. cbn [snd]. fold (reads lines). rewrite IH.
  reflexivity.
Qed.

(** The clean-up of [run], which closes the port if it is open, is
    reached when the loop ends on the stop event or on a
    [SerialException] of [readline]; an exception of another class leaves
    [run] without it, and the port is not closed.  The calls on the port
    after [lines] were read are then these. *)
Theorem close_on_stop_and_serial_exception_only
    (is_open : bool) (lines : list bytes) (rest : list observation)
    (exc : SerialException) :
  run_calls (Return ()) (Return ()) is_open (reads lines ++ StopSet :: rest)
    = [CallSerial; CallFlushInput] ++ repeat CallReadline (length lines)
      ++ clean_up is_open /\
  run_calls (Return ()) (Return ()) is_open
      (reads lines ++ Readline (Raise exc) :: rest)
    = [CallSerial; CallFlushInput] ++ repeat CallReadline (S (length lines))
      ++ clean_up is_open /\
  run_calls (Return ()) (Return ()) is_open
      (reads lines ++ Readline RaiseOther :: rest)
    = [CallSerial; CallFlushInput] ++ repeat CallReadline (S (length lines)).
Proof.
  unfold run_calls. rewrite !loop_calls_reads. cbn [loop_calls loop_body snd].
  assert (Hsnoc : forall n (l : list port_call),
            repeat CallReadline n ++ CallReadline :: l
            = repeat CallReadline (S n) ++ l).
  { intros n l. induction n as [|n IHn]; [reflexivity|].
    cbn [repeat app] in *. rewrite IHn. reflexivity. }
  rewrite !Hsnoc, app_nil_r. repeat split.
Qed.

Lemma loop_calls_close_last (is_open : bool) (script : list observation) :
  CallClose ∉ loop_calls is_open script \/
  exists before,
    loop_calls is_open script = before ++ [CallClose] /\ CallClose ∉ before.
Proof.
  assert (Hclean : CallClose ∉ clean_up is_open \/
                   exists before, clean_up is_open = before ++ [CallClose] /\
                                  CallClose ∉ before).
  { destruct is_open; cbn.
    - right. exists []. split; [reflexivity|]. apply not_elem_of_nil.
    - left. apply not_elem_of_nil. }
  induction script as [|o script IH].
  - left. apply not_elem_of_nil.
  - destruct o as [|r]; [exact Hclean|].
    cbn [loop_calls].
    assert (Hcons : forall l,
      (CallClose ∉ l \/
       exists before, l = before ++ [CallClose] /\ CallClose ∉ before) ->
      CallClose ∉ CallReadline :: l \/
      exists before, CallReadline :: l = before ++ [CallClose] /\
                     CallClose ∉ before).
    { intros l [Hno|(before & -> & Hno)].
      - left. intros Hin. apply elem_of_cons in Hin as [Hin|Hin];
          [discriminate|contradiction].
      - right. exists (CallReadline :: before). split; [reflexivity|].
        intros Hin. apply elem_of_cons in Hin as [Hin|Hin];
          [discriminate|contradiction]. }
    apply Hcons.
    destruct (snd (loop_body r)); [exact IH|exact Hclean|].
    left. apply not_elem_of_nil.
Qed.

(** Whatever the port does, [run] closes it at most once, and calls
    nothing on it after that; it calls [Serial(...)] first, once. *)
Theorem port_is_closed_once_and_last
    (opened flushed : result unit) (is_open : bool) (script : list observation) :
  (exists calls,
     run_calls opened flushed is_open script = CallSerial :: calls /\
     CallSerial ∉ calls) /\
  (CallClose ∉ run_calls opened flushed is_open script \/
   exists before,
     run_calls opened flushed is_open script = before ++ [CallClose] /\
     CallClose ∉ before).
Proof.
  assert (Hloop_serial : forall s, CallSerial ∉ loop_calls is_open s).
  { induction s as [|o s IHs]; [apply not_elem_of_nil|].
    destruct o as [|r]; cbn [loop_calls].
    - destruct is_open; cbn; [|apply not_elem_of_nil].
      intros Hin. apply list_elem_of_singleton in Hin. discriminate.
    - intros Hin. apply elem_of_cons in Hin as [Hin|Hin]; [discriminate|].
      destruct (snd (loop_body r)).
      + contradiction.
      + destruct is_open; cbn in Hin.
        * apply list_elem_of_singleton in Hin. discriminate.
        * apply not_elem_of_nil in Hin. exact Hin.
      + apply not_elem_of_nil in Hin. exact Hin. }
  assert (Hnil : forall c : port_call, CallClose ∉ [c] -> 
            CallClose ∉ [c] \/ exists before, [c] = before ++ [CallClose] /\ CallClose ∉ before)
    by (intros c Hc; left; exact Hc).
  split.
  - eexists. split; [reflexivity|].
    destruct opened as [[]| |]; [|apply not_elem_of_nil..].
    intros Hin. apply elem_of_cons in Hin as [Hin|Hin]; [discriminate|].
    destruct flushed as [[]| |]; [|apply not_elem_of_nil in Hin; exact Hin..].
    exact (Hloop_serial script Hin).
  - unfold run_calls.
    destruct opened as [[]| |].
    + destruct flushed as [[]| |].
      * destruct (loop_calls_close_last is_open script)
          as [Hno|(before & Heq & Hno)].
        -- left. intros Hin. apply elem_of_cons in Hin as [Hin|Hin];
             [discriminate|].
           apply elem_of_cons in Hin as [Hin|Hin]; [discriminate|contradiction].
        -- right. exists (CallSerial :: CallFlushInput :: before).
           rewrite Heq. split; [reflexivity|].
           intros Hin. apply elem_of_cons in Hin as [Hin|Hin];
             [discriminate|].
           apply elem_of_cons in Hin as [Hin|Hin]; [discriminate|contradiction].
      * left. intros Hin. apply elem_of_cons in Hin as [Hin|Hin];
          [discriminate|].
        apply list_elem_of_singleton in Hin. discriminate.
      * left. intros Hin. apply elem_of_cons in Hin as [Hin|Hin];
          [discriminate|].
        apply list_elem_of_singleton in Hin. discriminate.
    + left. intros Hin. apply list_elem_of_singleton in Hin. discriminate.
    + left. intros Hin. apply list_elem_of_singleton in Hin. discriminate.
Qed.

End ReaderMore.

(** * More about the window *)

Section WindowMore.

Import SerialPlotter.

(** A start that fails a check shows one box and does nothing else: no
    thread is made, the buffers and the buttons are as they were.  The port
    is checked first, so an empty port with a bad baud rate gives the
    warning about the port. *)
Theorem invalid_start_creates_nothing
    (p : string) (baud : option Z) (now : float) (w : t) :
  p = EmptyString \/ baud = None ->
  exists box,
    _start_reading p baud now w = set_boxes (boxes w ++ [box]) w /\
    box_icon box = (match p with EmptyString => Warning | _ => Critical end) /\
    title box = (match p with
                 | EmptyString => "No Port Selected"
                 | _ => "Invalid Baudrate"
                 end).
Proof.
  intros Hbad. unfold _start_reading.
  destruct p as [|c p].
  - eexists. split; [reflexivity|]. split; reflexivity.
  - destruct Hbad as [Hp|Hb]; [discriminate|]. rewrite Hb.
    eexists. split; [reflexivity|]. split; reflexivity.
Qed.

(** A start with no port selected and a baud rate that is no integer, for
    [invalid_start_creates_nothing]. *)
Lemma invalid_start_creates_nothing_witness :
  (EmptyString = EmptyString \/ @None Z = None) /\
  exists box,
    _start_reading EmptyString None f0 (__init__ f0 7%nat)
      = set_boxes (boxes (__init__ f0 7%nat) ++ [box]) (__init__ f0 7%nat) /\
    box_icon box = Warning /\ title box = "No Port Selected".
Proof.
  split; [left; reflexivity|].
  exact (invalid_start_creates_nothing EmptyString None f0 (__init__ f0 7%nat)
           (or_introl eq_refl)).
Defined.

(** The redraw gives the chart its data and its ranges and touches nothing
    else; with an empty buffer it does nothing at all; and a second redraw
    of the same buffers changes nothing. *)
Theorem redraw_is_local_and_idempotent (w : t) :
  but_chart (state_of (_update_plot w)) = but_chart w /\
  (_data w = [] -> _update_plot w = Returned w) /\
  _update_plot (state_of (_update_plot w)) = _update_plot w.
Proof.
  split; [|split].
  - destruct (state_of_update_plot w) as (l & x & y & ->). reflexivity.
  - intros Hdata. unfold _update_plot. rewrite Hdata. reflexivity.
  - destruct (_data w) as [|d ds] eqn:Hdata.
    + assert (Hup : _update_plot w = Returned w)
        by (unfold _update_plot; rewrite Hdata; reflexivity).
      rewrite Hup. exact Hup.
    + set (w' := state_of (_update_plot w)).
      assert (Hsame : _data w' = d :: ds /\ _time w' = _time w).
      { subst w'. destruct (state_of_update_plot w) as (l & x & y & ->).
        split; [exact Hdata|reflexivity]. }
      destruct Hsame as [Hdata' Htime'].
      destruct (last (_time w)) as [latest|] eqn:Hlast.
      * assert (Hlast' : last (_time w') = Some latest)
          by (rewrite Htime'; exact Hlast).
        rewrite (_update_plot_nonempty w' d ds latest Hdata' Hlast').
        subst w'.
        rewrite (_update_plot_nonempty w d ds latest Hdata Hlast).
        cbv zeta.
        repeat match goal with
               | |- context [if ?c then _ else _] => destruct c
               end; reflexivity.
      * assert (Hlast' : last (_time w') = None)
          by (rewrite Htime'; exact Hlast).
        assert (Hup : forall v, _data v = d :: ds -> last (_time v) = None ->
                  _update_plot v = IndexError (set__line (_time v, _data v) v)).
        { intros v Hd Hl. unfold _update_plot. rewrite Hd.
          cbn [_time set__line]. rewrite Hl. reflexivity. }
        rewrite (Hup w' Hdata' Hlast'). subst w'.
        rewrite (Hup w Hdata Hlast). reflexivity.
Qed.

(** An empty buffer, for [redraw_is_local_and_idempotent]. *)
Lemma redraw_is_local_and_idempotent_witness :
  _data (__init__ f0 7%nat) = [] /\
  _update_plot (__init__ f0 7%nat) = Returned (__init__ f0 7%nat).
Proof.
  split; [reflexivity|].
  exact (proj1 (proj2 (redraw_is_local_and_idempotent (__init__ f0 7%nat)))
           eq_refl).
Defined.

Lemma _update_plot_keeps_buffers (w : t) :
  _data (state_of (_update_plot w)) = _data w /\
  _time (state_of (_update_plot w)) = _time w.
Proof.
  destruct (state_of_update_plot w) as (l & x & y & ->). split; reflexivity.
Qed.

(** Between two starts the buffers only grow: every handler and every step
    of a thread leaves what [_data] and [_time] hold and may append as many
    timestamps as values; only a click on Start empties them. *)
Theorem buffers_are_append_only (w : t) (e : event) :
  (exists values times,
     _data (step w e) = _data w ++ values /\
     _time (step w e) = _time w ++ times /\
     length values = length times) \/
  (exists p baud now,
     e = ClickStart p baud now /\
     _data (step w e) = [] /\ _time (step w e) = []).
Proof.
  assert (Hsame : forall w', _data w' = _data w -> _time w' = _time w ->
            exists values times,
              _data w' = _data w ++ values /\ _time w' = _time w ++ times /\
              length values = length times).
  { intros w' Hd Ht. exists [], []. rewrite !app_nil_r. repeat split; assumption. }
  destruct e as [p baud now| |timerId clock| | |tid ev]; cbn [step].
  - destruct (_start_btn w); [|left; apply Hsame; reflexivity].
    unfold _start_reading. destruct p; [left; apply Hsame; reflexivity|].
    destruct baud; [|left; apply Hsame; reflexivity].
    right. eexists _, _, _. repeat split.
  - left. destruct (_stop_btn w); [|apply Hsame; reflexivity].
    destruct (_stop_reading_effect w) as (_ & _ & _ & _ & _ & _ & Hd & Ht & _).
    apply Hsame; assumption.
  - left. unfold timerEvent.
    destruct (decide (timerId = _timer w)); [|apply Hsame; reflexivity].
    cbn zeta.
    set (items := default [] (queues w !! _data_queue w)).
    destruct (drain_effect items clock w) as (_ & _ & Hd & Ht & _).
    cbn zeta in *.
    destruct (redraw_request_effect (drain items clock w))
      as (_ & _ & Rd & Rt & _).
    cbn zeta in *. rewrite Rd, Rt, Hd, Ht.
    eexists _, _. split; [reflexivity|]. split; [reflexivity|].
    rewrite length_stamps. reflexivity.
  - left. destruct (_update_plot_keeps_buffers w) as [Hd Ht].
    apply Hsame; assumption.
  - left. unfold closeEvent.
    destruct (_stop_reading_effect w) as (_ & _ & _ & _ & _ & _ & Hd & Ht & _).
    apply Hsame; assumption.
  - left. unfold reader_step. destruct (readers w !! tid) as [r|];
      [|apply Hsame; reflexivity].
    destruct (SerialReader.step r ev). apply Hsame; reflexivity.
Qed.

Lemma put_lookup (q : nat) (items content : list item) (w : t) :
  queues w !! q = Some content ->
  queues (put q items w) !! q = Some (content ++ items).
Proof.
  intros Hq. unfold put. cbn. rewrite list_lookup_alter_eq, Hq. reflexivity.
Qed.

Lemma reader_step_effect (tid : nat) (ev : SerialReader.io) (w : t)
    (r : SerialReader.t) :
  readers w !! tid = Some r ->
  reader_step tid ev w
  = put (SerialReader.data_queue r) (snd (SerialReader.step r ev))
      (set_readers (<[tid := fst (SerialReader.step r ev)]> (readers w)) w).
Proof.
  intros Hr. unfold reader_step. rewrite Hr.
  destruct (SerialReader.step r ev). reflexivity.
Qed.

(** The steps of a thread of the window are the steps of the thread: its
    record becomes what [reader_steps] gives, its queue gets what
    [reader_steps] puts, and the attributes of the window are untouched. *)
Lemma reader_run_effect (tid : nat) (evs : list SerialReader.io) (w : t)
    (r : SerialReader.t) (content : list item) :
  readers w !! tid = Some r ->
  queues w !! SerialReader.data_queue r = Some content ->
  readers (reader_run tid evs w) !! tid = Some (fst (reader_steps r evs)) /\
  queues (reader_run tid evs w) !! SerialReader.data_queue r
    = Some (content ++ snd (reader_steps r evs)) /\
  gui_state (reader_run tid evs w) = gui_state w.
Proof.
  revert w r content.
  induction evs as [|ev evs IH]; intros w r content Hr Hq.
  - cbn. rewrite app_nil_r. repeat split; assumption.
  - change (reader_run tid (ev :: evs) w)
      with (reader_run tid evs (reader_step tid ev w)).
    rewrite (reader_step_effect tid ev w r Hr), reader_steps_cons.
    pose proof (reader_step_keeps r ev) as [Hkq _].
    destruct (SerialReader.step r ev) as [r1 puts1]. cbn [fst snd] in *.
    set (w1 := put _ puts1 _).
    assert (Hr1 : readers w1 !! tid = Some r1).
    { subst w1. cbn. apply list_lookup_insert_eq. eapply lookup_lt_Some, Hr. }
    assert (Hq1 : queues w1 !! SerialReader.data_queue r1 = Some (content ++ puts1)).
    { rewrite Hkq. subst w1. apply put_lookup. exact Hq. }
    assert (Hg1 : gui_state w1 = gui_state w) by reflexivity.
    clearbody w1.
    destruct (IH w1 r1 (content ++ puts1) Hr1 Hq1) as (I1 & I2 & I3).
    destruct (reader_steps r1 evs) as [r2 puts2]. cbn [fst snd] in *.
    rewrite Hkq in I2. rewrite <- app_assoc in I2.
    repeat split; [exact I1|exact I2|congruence].
Qed.

(** A thread touches its queue and its own record only: whatever it does,
    the attributes of the window are as they were, the other threads too,
    and every queue still starts with what it held: a thread appends, it
    neither removes nor reorders. *)
Theorem reader_only_appends_to_its_queue
    (tid : nat) (evs : list SerialReader.io) (w : t) :
  gui_state (reader_run tid evs w) = gui_state w /\
  length (queues (reader_run tid evs w)) = length (queues w) /\
  length (readers (reader_run tid evs w)) = length (readers w) /\
  (forall q content,
     queues w !! q = Some content ->
     exists more, queues (reader_run tid evs w) !! q = Some (content ++ more)) /\
  (forall other,
     other <> tid -> readers (reader_run tid evs w) !! other = readers w !! other).
Proof.
  revert w. induction evs as [|ev evs IH]; intros w.
  - cbn. repeat split. intros q content Hq. exists []. rewrite app_nil_r. exact Hq.
  - change (reader_run tid (ev :: evs) w)
      with (reader_run tid evs (reader_step tid ev w)).
    destruct (IH (reader_step tid ev w)) as (I1 & I2 & I3 & I4 & I5).
    destruct (readers w !! tid) as [r|] eqn:Hr.
    + rewrite (reader_step_effect tid ev w r Hr) in *.
      set (puts := snd (SerialReader.step r ev)) in *.
      set (r1 := fst (SerialReader.step r ev)) in *.
      split; [rewrite I1; reflexivity|].
      split; [rewrite I2; cbn; apply length_alter|].
      split; [rewrite I3; cbn; apply length_insert|].
      split.
      * intros q content Hq.
        destruct (decide (q = SerialReader.data_queue r)) as [->|Hne].
        -- destruct (I4 _ _ (put_lookup _ puts content _ Hq)) as [more Hmore].
           exists (puts ++ more). rewrite app_assoc. exact Hmore.
        -- apply I4. cbn. rewrite list_lookup_alter_ne by congruence. exact Hq.
      * intros other Hother. rewrite (I5 other Hother). cbn.
        apply list_lookup_insert_ne. congruence.
    + assert (Hw : reader_step tid ev w = w)
        by (unfold reader_step; rewrite Hr; reflexivity).
      rewrite Hw in *. repeat split; assumption.
Qed.

(** A thread that reads a line during the first session, for
    [reader_only_appends_to_its_queue]. *)
Lemma reader_only_appends_to_its_queue_witness :
  let w := put 0%nat [Value (lit "1.0")]
             (_start_reading "COM1" (Some 9600) f0 (__init__ f0 7%nat)) in
  let evs := [SerialReader.Open (Return ()); SerialReader.Flush (Return ());
              SerialReader.Head;
              SerialReader.Read (Return (b "2.0" ++ [x0a]))] in
  queues w !! 0%nat = Some [Value (lit "1.0")] /\
  exists more,
    queues (reader_run 0%nat evs w) !! 0%nat = Some ([Value (lit "1.0")] ++ more).
Proof.
  intros w evs.
  assert (Hq : queues w !! 0%nat = Some [Value (lit "1.0")]) by reflexivity.
  split; [exact Hq|].
  exact (proj1 (proj2 (proj2 (proj2
           (reader_only_appends_to_its_queue 0%nat evs w)))) 0%nat _ Hq).
Defined.

(** A session from its start to the next timer event.  From a window whose
    queue is empty, a start that passes its checks makes a thread; when
    the thread has opened and flushed its port and gone through a pass of
    its loop for each of [answers], the timer event leaves in [_data] the values that [run] puts, in order,
    each with the elapsed time at which it was taken from the queue, and
    has shown a box for the exception if [run] put one; the session is
    still there if it did not, and is stopped if it did. *)
Theorem session_delivers_what_run_puts
    (w : t) (p : string) (baud : Z) (now : float)
    (opened flushed : result unit) (answers : list (result bytes))
    (clock : nat -> float) :
  p <> EmptyString ->
  queues w !! _data_queue w = Some [] ->
  let tid := length (readers w) in
  let puts := SerialReader.run opened flushed (map SerialReader.Readline answers) in
  let w' :=
    timerEvent (_timer w) clock
      (reader_run tid
         (SerialReader.Open opened :: SerialReader.Flush flushed
            :: passes answers)
         (_start_reading p (Some baud) now w)) in
  _data w' = values_of puts /\
  _time w' = stamps clock now (length (values_of puts)) /\
  boxes w' = boxes w ++ map error_box (errors_of puts) /\
  queues w' !! _data_queue w = Some [] /\
  _reader w' = (match errors_of puts with [] => Some tid | _ => None end) /\
  _start_btn w' = (match errors_of puts with [] => false | _ => true end).
Proof.
  intros Hp Hq tid puts.
  destruct p as [|c p]; [contradiction|].
  set (w1 := _start_reading (String c p) (Some baud) now w).
  set (r := SerialReader.__init__ (mkSerialConfig (String c p) baud) (_data_queue w)).
  assert (Hr : readers w1 !! tid = Some r).
  { subst w1 tid. cbn. rewrite lookup_app_r by reflexivity.
    rewrite Nat.sub_diag. reflexivity. }
  assert (Hq1 : queues w1 !! SerialReader.data_queue r = Some []) by exact Hq.
  destruct (reader_run_effect tid
              (SerialReader.Open opened :: SerialReader.Flush flushed
                 :: passes answers) w1 r [] Hr Hq1)
    as (_ & Hq2 & Hg2).
  subst r. rewrite reader_steps_run in Hq2.
  cbn [app SerialReader.data_queue SerialReader.__init__] in Hq2.
  fold puts in Hq2.
  set (w2 := reader_run tid _ w1) in *.
  assert (Hfields :
    _data_queue w2 = _data_queue w /\ _data w2 = [] /\ _time w2 = [] /\
    _start_time w2 = now /\ _reader w2 = Some tid /\ _timer w2 = _timer w /\
    _start_btn w2 = false /\ boxes w2 = boxes w).
  { unfold gui_state in Hg2.
    injection Hg2 as G1 G2 G3 G4 G5 G6 G7 G8 G9 G10 G11 G12 G13.
    rewrite G1, G2, G3, G4, G5, G6, G7, G12. repeat split. }
  destruct Hfields as (F1 & F2 & F3 & F4 & F5 & F6 & F7 & F8).
  clearbody w2. cbn zeta. unfold timerEvent.
  rewrite F6. destruct (decide (_timer w = _timer w)) as [_|Hne]; [|contradiction].
  rewrite F1, Hq2.
  change (default [] (Some puts)) with puts. cbn zeta.
  destruct (drain_effect puts clock w2) as (Dq & Db & Dd & Dt & Dr & _).
  cbn zeta in *.
  destruct (redraw_request_effect (drain puts clock w2))
    as (-> & -> & -> & -> & _ & -> & -> & _).
  rewrite Dq, Db, Dd, Dt, F1, F2, F3, F4, F8.
  split; [reflexivity|]. split; [reflexivity|]. split; [reflexivity|].
  split.
  { destruct puts; [exact Hq2 || (rewrite <- F1; exact Hq2)|].
    apply list_lookup_insert_eq. eapply lookup_lt_Some, Hq2. }
  destruct (errors_of puts).
  - destruct Dr as (_ & -> & -> & _). split; assumption.
  - destruct Dr as (_ & -> & -> & _). split; reflexivity.
Qed.

(** The window just constructed and a device that sends three lines, for
    [session_delivers_what_run_puts]. *)
Lemma session_delivers_what_run_puts_witness :
  let answers := [Return (b "1.0" ++ [x0a]); Return (b "garbage" ++ [x0a]);
                  Return (b "2.0" ++ [x0a])] in
  let w' :=
    timerEvent 7%nat (fun _ => lit "3")
      (reader_run 0%nat
         (SerialReader.Open (Return ()) :: SerialReader.Flush (Return ())
            :: passes answers)
         (_start_reading "COM1" (Some 9600) f0 (__init__ f0 7%nat))) in
  "COM1" <> EmptyString /\
  queues (__init__ f0 7%nat) !! _data_queue (__init__ f0 7%nat) = Some [] /\
  _data w' = [lit "1.0"; lit "2.0"] /\
  _reader w' = Some 0%nat.
Proof.
  intros answers w'.
  assert (Hp : "COM1" <> EmptyString) by discriminate.
  assert (Hq : queues (__init__ f0 7%nat) !! _data_queue (__init__ f0 7%nat)
               = Some []) by reflexivity.
  split; [exact Hp|]. split; [exact Hq|].
  destruct (session_delivers_what_run_puts (__init__ f0 7%nat) "COM1" 9600 f0
              (Return ()) (Return ()) answers (fun _ => lit "3") Hp Hq)
    as (Hd & _ & _ & _ & Hr & _).
  split; [exact Hd|exact Hr].
Defined.

(** A timer event leaves its queue empty. *)
Lemma timerEvent_leaves_queue_empty (clock : nat -> float) (w : t) :
  default [] (queues (timerEvent (_timer w) clock w) !! _data_queue w) = [].
Proof.
  unfold timerEvent.
  destruct (decide (_timer w = _timer w)) as [_|Hne]; [|contradiction].
  cbn zeta.
  destruct (drain_effect (default [] (queues w !! _data_queue w)) clock w)
    as (Dq & _).
  cbn zeta in Dq.
  destruct (redraw_request_effect
              (drain (default [] (queues w !! _data_queue w)) clock w))
    as (-> & _).
  rewrite Dq.
  destruct (queues w !! _data_queue w) as [content|] eqn:Hq.
  - change (default [] (Some content)) with content.
    destruct content as [|i content]; [rewrite Hq; reflexivity|].
    rewrite list_lookup_insert_eq by (eapply lookup_lt_Some, Hq). reflexivity.
  - change (default [] (@None (list item))) with (@nil item).
    cbn match. rewrite Hq. reflexivity.
Qed.

Lemma timerEvent_keeps_ids (clock : nat -> float) (w : t) :
  _timer (timerEvent (_timer w) clock w) = _timer w /\
  _data_queue (timerEvent (_timer w) clock w) = _data_queue w.
Proof.
  unfold timerEvent.
  destruct (decide (_timer w = _timer w)) as [_|Hne]; [|contradiction].
  cbn zeta.
  set (items := default [] (queues w !! _data_queue w)).
  destruct (drain_effect items clock w) as (_ & _ & _ & _ & _ & Ddq & _ & Dtm & _).
  cbn zeta in *.
  destruct (_data (drain items clock w)); split; assumption.
Qed.

(** A timer event drains the queue to its end: the next one, if no thread
    has put anything meanwhile, appends nothing and shows nothing.  All it
    does is to ask for a redraw again, which [timerEvent] does whenever the
    buffer holds a value, new or not. *)
Theorem second_timerEvent_finds_nothing (clock clock' : nat -> float) (w : t) :
  timerEvent (_timer w) clock' (timerEvent (_timer w) clock w)
  = match _data (timerEvent (_timer w) clock w) with
    | [] => timerEvent (_timer w) clock w
    | _ => set_draw_idle (S (draw_idle (timerEvent (_timer w) clock w)))
             (timerEvent (_timer w) clock w)
    end.
Proof.
  pose proof (timerEvent_leaves_queue_empty clock w) as Hq.
  destruct (timerEvent_keeps_ids clock w) as [Htm Hdq].
  set (w1 := timerEvent (_timer w) clock w) in *.
  clearbody w1. unfold timerEvent at 1.
  rewrite Htm. destruct (decide (_timer w = _timer w)) as [_|Hne]; [|contradiction].
  rewrite Hdq, Hq. reflexivity.
Qed.

(** What [timerEvent] leaves, from what it finds in the queue. *)
Lemma timerEvent_effect (clock : nat -> float) (w : t) (items : list item) :
  queues w !! _data_queue w = Some items ->
  let w' := timerEvent (_timer w) clock w in
  queues w' !! _data_queue w = Some [] /\
  boxes w' = boxes w ++ map error_box (errors_of items) /\
  _data w' = _data w ++ values_of items /\
  _time w' = _time w ++ stamps clock (_start_time w) (length (values_of items)) /\
  match errors_of items with
  | [] =>
      readers w' = readers w /\ _reader w' = _reader w /\
      _start_btn w' = _start_btn w /\ _stop_btn w' = _stop_btn w
  | _ =>
      readers w' = readers (_stop_reading w) /\ _reader w' = None /\
      _start_btn w' = true /\ _stop_btn w' = false
  end /\
  _start_time w' = _start_time w.
Proof.
  intros Hq. cbn zeta.
  pose proof (timerEvent_leaves_queue_empty clock w) as Hempty.
  unfold timerEvent in *.
  destruct (decide (_timer w = _timer w)) as [_|Hne]; [|contradiction].
  rewrite Hq in *. change (default [] (Some items)) with items in *.
  cbn zeta in *.
  destruct (drain_effect items clock w)
    as (Dq & Db & Dd & Dt & Dr & _ & Dst & _).
  cbn zeta in *.
  destruct (redraw_request_effect (drain items clock w))
    as (Rq & Rb & Rd & Rt & Rr & Rrd & Rsb & Rpb).
  cbn zeta in *.
  assert (Hst : _start_time
                  match _data (drain items clock w) with
                  | [] => drain items clock w
                  | _ :: _ => set_draw_idle (S (draw_idle (drain items clock w)))
                                (drain items clock w)
                  end = _start_time w)
    by (destruct (_data (drain items clock w)); exact Dst).
  rewrite Rb, Rd, Rt, Rr, Rrd, Rsb, Rpb, Hst, Rq.
  split.
  { rewrite Dq. destruct items; [exact Hq|].
    apply list_lookup_insert_eq. eapply lookup_lt_Some, Hq. }
  repeat split; assumption.
Qed.

(** How the arrivals fall between the timer events does not matter for
    what is delivered, the timestamps apart: whether the items
    [first ++ second] are all in the queue at one timer event, or [first]
    at one and [second] at the next, the same values are appended to the
    buffer in the same order, with as many timestamps, the same boxes are
    shown, and the reader and the threads end up the same.  The timestamps
    differ: a value is stamped with the clock of the timer event that takes
    it from the queue, not with the time at which it arrived. *)
Theorem batches_compose
    (w : t) (first second : list item) (clock clock' : nat -> float) :
  queues w !! _data_queue w = Some [] ->
  let dq := _data_queue w in
  let one := timerEvent (_timer w) clock (put dq (first ++ second) w) in
  let two :=
    timerEvent (_timer w) clock'
      (put dq second (timerEvent (_timer w) clock (put dq first w))) in
  _data two = _data one /\
  length (_time two) = length (_time one) /\
  _time one = _time w ++ stamps clock (_start_time w)
                           (length (values_of first ++ values_of second)) /\
  _time two = _time w ++ stamps clock (_start_time w) (length (values_of first))
                      ++ stamps clock' (_start_time w) (length (values_of second)) /\
  boxes two = boxes one /\
  _reader two = _reader one /\ readers two = readers one /\
  _start_btn two = _start_btn one /\ _stop_btn two = _stop_btn one.
Proof.
  intros Hq dq one two.
  assert (Hput : forall items (w0 : t),
            queues w0 !! _data_queue w0 = Some [] ->
            queues (put (_data_queue w0) items w0)
              !! _data_queue (put (_data_queue w0) items w0) = Some items).
  { intros items w0 H0. exact (put_lookup _ items [] w0 H0). }
  (* one timer event *)
  destruct (timerEvent_effect clock (put dq (first ++ second) w) (first ++ second)
              (Hput _ w Hq))
    as (_ & Ob & Od & Ot & Or & _).
  (* two timer events *)
  destruct (timerEvent_effect clock (put dq first w) first (Hput _ w Hq))
    as (Aq & Ab & Ad & At & Ar & Ast).
  cbn zeta in *.
  change (_timer (put dq first w)) with (_timer w) in *.
  change (_timer (put dq (first ++ second) w)) with (_timer w) in *.
  change (_data_queue (put dq first w)) with (_data_queue w) in *.
  set (w1 := timerEvent (_timer w) clock (put dq first w)) in *.
  destruct (timerEvent_keeps_ids clock (put dq first w)) as [Htm Hdq].
  change (_timer (put dq first w)) with (_timer w) in *.
  change (_data_queue (put dq first w)) with (_data_queue w) in *.
  fold w1 in Htm, Hdq.
  assert (Hq1 : queues w1 !! _data_queue w1 = Some []) by (rewrite Hdq; exact Aq).
  pose proof (Hput second w1 Hq1) as Hq2.
  destruct (timerEvent_effect clock'
              (put (_data_queue w1) second w1) second Hq2)
    as (_ & Bb & Bd & Bt & Br & _).
  cbn zeta in *.
  change (_timer (put (_data_queue w1) second w1)) with (_timer w1) in *.
  rewrite Htm, Hdq in *.
  subst one two. fold dq in Bb, Bd, Bt, Br.
  change (boxes (put dq second w1)) with (boxes w1) in *.
  change (_data (put dq second w1)) with (_data w1) in *.
  change (_time (put dq second w1)) with (_time w1) in *.
  change (_start_time (put dq second w1)) with (_start_time w1) in *.
  change (readers (put dq second w1)) with (readers w1) in *.
  change (_reader (put dq second w1)) with (_reader w1) in *.
  change (_start_btn (put dq second w1)) with (_start_btn w1) in *.
  change (_stop_btn (put dq second w1)) with (_stop_btn w1) in *.
  change (boxes (put dq first w)) with (boxes w) in *.
  change (_data (put dq first w)) with (_data w) in *.
  change (_time (put dq first w)) with (_time w) in *.
  change (_start_time (put dq first w)) with (_start_time w) in *.
  change (readers (put dq first w)) with (readers w) in *.
  change (_reader (put dq first w)) with (_reader w) in *.
  change (_start_btn (put dq first w)) with (_start_btn w) in *.
  change (_stop_btn (put dq first w)) with (_stop_btn w) in *.
  change (boxes (put dq (first ++ second) w)) with (boxes w) in *.
  change (_data (put dq (first ++ second) w)) with (_data w) in *.
  change (_time (put dq (first ++ second) w)) with (_time w) in *.
  change (_start_time (put dq (first ++ second) w)) with (_start_time w) in *.
  change (readers (put dq (first ++ second) w)) with (readers w) in *.
  change (_reader (put dq (first ++ second) w)) with (_reader w) in *.
  change (_start_btn (put dq (first ++ second) w)) with (_start_btn w) in *.
  change (_stop_btn (put dq (first ++ second) w)) with (_stop_btn w) in *.
  rewrite (same_readers_stop (put dq (first ++ second) w) w eq_refl eq_refl) in Or.
  rewrite (same_readers_stop (put dq first w) w eq_refl eq_refl) in Ar.
  rewrite (same_readers_stop (put dq second w1) w1 eq_refl eq_refl) in Br.
  assert (Herr : errors_of (first ++ second) = errors_of first ++ errors_of second)
    by apply omap_app.
  assert (Hval : values_of (first ++ second) = values_of first ++ values_of second)
    by apply omap_app.
  rewrite Herr in Ob, Or. rewrite Hval in Od, Ot.
  split; [rewrite Bd, Ad, Od, app_assoc; reflexivity|].
  split.
  { rewrite Bt, At, Ot. repeat rewrite ?length_app, ?length_stamps. lia. }
  split; [exact Ot|].
  split; [rewrite Bt, At, Ast, app_assoc; reflexivity|].
  split; [rewrite Bb, Ab, Ob, map_app, app_assoc; reflexivity|].
  destruct (errors_of first) as [|e1 es1].
  - destruct Ar as (Ar1 & Ar2 & Ar3 & Ar4). cbn [app] in Or.
    destruct (errors_of second).
    + destruct Br as (-> & -> & -> & ->). destruct Or as (-> & -> & -> & ->).
      repeat split; assumption.
    + destruct Br as (-> & -> & -> & ->). destruct Or as (-> & -> & -> & ->).
      split; [reflexivity|]. split; [|split; reflexivity].
      apply same_readers_stop; assumption.
  - destruct Ar as (Ar1 & Ar2 & Ar3 & Ar4). cbn [app] in Or.
    destruct Or as (-> & -> & -> & ->).
    assert (Hstop1 : readers (_stop_reading w1) = readers w1).
    { destruct (_stop_reading_effect w1) as (Hr1 & _).
      cbn zeta in Hr1. rewrite Ar2 in Hr1. exact Hr1. }
    destruct (errors_of second).
    + destruct Br as (-> & -> & -> & ->). repeat split; assumption.
    + destruct Br as (-> & -> & -> & ->).
      split; [reflexivity|]. split; [|split; reflexivity].
      rewrite Hstop1. exact Ar1.
Qed.

(** Two values, then an exception and a value, for [batches_compose]. *)
Lemma batches_compose_witness :
  let w := _start_reading "COM1" (Some 9600) f0 (__init__ f0 7%nat) in
  let first := [Value (lit "1.0"); Value (lit "2.0")] in
  let second := [Exc {| strerror := "gone" |}; Value (lit "3.0")] in
  let clock := fun k : nat => float_of_Z (Z.of_nat k) in
  let clock' := fun k : nat => float_of_Z (100 + Z.of_nat k) in
  queues w !! _data_queue w = Some [] /\
  _data (timerEvent (_timer w) clock'
           (put (_data_queue w) second
              (timerEvent (_timer w) clock (put (_data_queue w) first w))))
  = _data (timerEvent (_timer w) clock (put (_data_queue w) (first ++ second) w)).
Proof.
  intros w first second clock clock'.
  assert (Hq : queues w !! _data_queue w = Some []) by reflexivity.
  split; [exact Hq|].
  exact (proj1 (batches_compose w first second clock clock' Hq)).
Defined.

Lemma filter_nil_forall {A} (P : A -> Prop) `{!forall x, Decision (P x)}
    (l : list A) :
  (forall x, x ∈ l -> ~ P x) -> filter P l = [].
Proof.
  intros Hno. destruct (filter P l) as [|y ys] eqn:Hf; [reflexivity|].
  assert (Hy : y ∈ filter P l) by (rewrite Hf; left).
  apply list_elem_of_filter in Hy as [HPy Hy]. destruct (Hno y Hy HPy).
Qed.

(** When the window is closed, and when Stop is clicked, every reader the
    window has ever started has been asked to stop, none is left running
    unnoticed, and the window refers to no reader. *)
Theorem close_stops_every_reader
    (now : float) (timer : nat) (events : list event) :
  unstopped (step (exec now timer events) CloseEvent) = [] /\
  _reader (step (exec now timer events) CloseEvent) = None /\
  unstopped (step (exec now timer events) ClickStop) = [] /\
  _reader (step (exec now timer events) ClickStop) = None.
Proof.
  assert (Hnone : forall w, consistent w -> _reader w = None -> unstopped w = []).
  { intros w Hw Hr. apply filter_nil_forall. intros r Hin Hstop.
    apply list_elem_of_lookup in Hin as [tid Htid].
    pose proof (unstopped_is_current w Hw tid r Htid Hstop). congruence. }
  pose proof (consistent_exec now timer events) as Hw.
  assert (Hstop : _reader (_stop_reading (exec now timer events)) = None).
  { destruct (_stop_reading_effect (exec now timer events)) as (_ & Hr & _).
    exact Hr. }
  assert (Hclick : _reader (step (exec now timer events) ClickStop) = None).
  { cbn [step]. destruct (_stop_btn (exec now timer events)) eqn:Hpb;
      [exact Hstop|].
    pose proof (stop_btn_enabled _ Hw) as H1.
    pose proof (start_btn_enabled _ Hw) as H2.
    rewrite Hpb in H1. destruct (_start_btn (exec now timer events));
      [|discriminate].
    symmetry in H2. apply bool_decide_eq_true in H2. exact H2. }
  split; [|split; [|split]].
  - apply Hnone; [apply consistent_stop, Hw|exact Hstop].
  - exact Hstop.
  - apply Hnone; [apply consistent_step, Hw|exact Hclick].
  - exact Hclick.
Qed.

(** Whatever has happened, exactly one of the two buttons is enabled: Stop
    when there is a reader, Start when there is none. *)
Theorem buttons_follow_the_reader
    (now : float) (timer : nat) (events : list event) :
  _stop_btn (exec now timer events) = negb (_start_btn (exec now timer events)) /\
  _stop_btn (exec now timer events)
    = bool_decide (is_Some (_reader (exec now timer events))).
Proof.
  pose proof (consistent_exec now timer events) as Hw.
  pose proof (stop_btn_enabled _ Hw) as H1.
  pose proof (start_btn_enabled _ Hw) as H2.
  split; [exact H1|]. rewrite H1, H2.
  destruct (_reader (exec now timer events)); reflexivity.
Qed.

(** No handler and no step removes a thread from the heap or takes back a
    request to stop: a thread that is there stays there with its
    configuration and its queue, does not go back in [run], and once its
    stop event is set the event stays set. *)
Theorem stop_is_never_undone (w : t) (e : event) (tid : nat) (r : SerialReader.t) :
  readers w !! tid = Some r ->
  exists r',
    readers (step w e) !! tid = Some r' /\
    SerialReader.config r' = SerialReader.config r /\
    SerialReader.data_queue r' = SerialReader.data_queue r /\
    (position_rank (SerialReader.pc r) <= position_rank (SerialReader.pc r'))%nat /\
    (SerialReader._stop_event r = true -> SerialReader._stop_event r' = true).
Proof.
  intros Hr.
  assert (Hsame : forall w', readers w' = readers w ->
            exists r', readers w' !! tid = Some r' /\
              SerialReader.config r' = SerialReader.config r /\
              SerialReader.data_queue r' = SerialReader.data_queue r /\
              (position_rank (SerialReader.pc r)
               <= position_rank (SerialReader.pc r'))%nat /\
              (SerialReader._stop_event r = true ->
               SerialReader._stop_event r' = true)).
  { intros w' Hw'. exists r. rewrite Hw'. repeat split; [exact Hr|lia|auto]. }
  assert (Hstopped : forall w', readers w' = readers (_stop_reading w) ->
            exists r', readers w' !! tid = Some r' /\
              SerialReader.config r' = SerialReader.config r /\
              SerialReader.data_queue r' = SerialReader.data_queue r /\
              (position_rank (SerialReader.pc r)
               <= position_rank (SerialReader.pc r'))%nat /\
              (SerialReader._stop_event r = true ->
               SerialReader._stop_event r' = true)).
  { intros w' Hw'. rewrite Hw'.
    destruct (_stop_reading_effect w) as (-> & _).
    destruct (_reader w) as [reader|]; [|apply Hsame; reflexivity].
    destruct (decide (reader = tid)) as [->|Hne].
    - exists (SerialReader.stop r). rewrite list_lookup_alter_eq, Hr.
      repeat split; cbn; lia.
    - exists r. rewrite list_lookup_alter_ne by exact Hne.
      repeat split; [exact Hr|lia|auto]. }
  destruct e as [p baud now| |timerId clock| | |tid' ev]; cbn [step].
  - destruct (_start_btn w); [|apply Hsame; reflexivity].
    unfold _start_reading. destruct p; [apply Hsame; reflexivity|].
    destruct baud; [|apply Hsame; reflexivity].
    exists r. cbn. rewrite lookup_app_l by (eapply lookup_lt_Some, Hr).
    repeat split; [exact Hr|lia|auto].
  - destruct (_stop_btn w); [apply Hstopped|apply Hsame]; reflexivity.
  - unfold timerEvent.
    destruct (decide (timerId = _timer w)); [|apply Hsame; reflexivity].
    cbn zeta.
    destruct (drain_effect (default [] (queues w !! _data_queue w)) clock w)
      as (_ & _ & _ & _ & Dr & _).
    cbn zeta in Dr.
    destruct (redraw_request_effect
                (drain (default [] (queues w !! _data_queue w)) clock w))
      as (_ & _ & _ & _ & Rr & _).
    cbn zeta in Rr.
    destruct (errors_of (default [] (queues w !! _data_queue w)));
      destruct Dr as (Dr & _); [apply Hsame|apply Hstopped]; congruence.
  - apply Hsame. destruct (state_of_update_plot w) as (l & x & y & ->).
    reflexivity.
  - apply Hstopped. reflexivity.
  - destruct (readers w !! tid') as [r0|] eqn:Hr0.
    + rewrite (reader_step_effect tid' ev w r0 Hr0). cbn.
      destruct (decide (tid' = tid)) as [->|Hne].
      * assert (r0 = r) by congruence. subst r0.
        pose proof (step_moves_forward r ev) as (S1 & S2 & S3 & S4).
        exists (fst (SerialReader.step r ev)).
        rewrite list_lookup_insert_eq by (eapply lookup_lt_Some, Hr).
        repeat split; [assumption..|congruence].
      * exists r. rewrite list_lookup_insert_ne by exact Hne.
        repeat split; [exact Hr|lia|auto].
    + apply Hsame. unfold reader_step. rewrite Hr0. reflexivity.
Qed.

(** The first thread when Stop is clicked, for [stop_is_never_undone]. *)
Lemma stop_is_never_undone_witness :
  let w := exec f0 7%nat [ClickStart "COM1" (Some 9600) f0] in
  let r := SerialReader.__init__ (mkSerialConfig "COM1" 9600) 0%nat in
  readers w !! 0%nat = Some r /\
  exists r',
    readers (step w ClickStop) !! 0%nat = Some r' /\
    SerialReader.config r' = SerialReader.config r /\
    SerialReader.data_queue r' = SerialReader.data_queue r /\
    (position_rank (SerialReader.pc r) <= position_rank (SerialReader.pc r'))%nat /\
    (SerialReader._stop_event r = true -> SerialReader._stop_event r' = true).
Proof.
  intros w r.
  assert (Hr : readers w !! 0%nat = Some r) by reflexivity.
  split; [exact Hr|].
  exact (stop_is_never_undone w ClickStop 0%nat r Hr).
Defined.

(** The left end handed to [set_xlim] is never below zero and never a
    NaN, whatever the latest timestamp is, also a negative one (the clock
    was set back after the start): [max(0, x)] gives [0] unless [x > 0].
    [set_xlim] takes the range when both ends are finite; if not, as with
    a latest timestamp that is a NaN or an infinity, it raises
    [ValueError] and the redraw ends there, with the line data set and
    both ranges as they were. *)
Theorem xlim_never_starts_below_zero (w : t) (latest : float) :
  _data w <> [] -> last (_time w) = Some latest ->
  fle f0 (max0 (fsub latest f30)) = true /\
  is_nan (max0 (fsub latest f30)) = false /\
  (_validate_converted_limits (max0 (fsub latest f30)) (fadd latest f1_0) = true ->
   xlim (state_of (_update_plot w))
     = Some (max0 (fsub latest f30), fadd latest f1_0)) /\
  (_validate_converted_limits (max0 (fsub latest f30)) (fadd latest f1_0) = false ->
   _update_plot w = ValueError (set__line (_time w, _data w) w)) /\
  (is_finite latest = false ->
   _validate_converted_limits (max0 (fsub latest f30)) (fadd latest f1_0) = false).
Proof.
  intros Hdata Hlast.
  destruct (_data w) as [|d ds] eqn:Hd; [contradiction|].
  pose proof (_update_plot_nonempty w d ds latest Hd Hlast) as Hup.
  cbv zeta in Hup. rewrite Hd in Hup.
  destruct (max0_not_below_zero (fsub latest f30)) as [Hle Hnan].
  split; [exact Hle|]. split; [exact Hnan|].
  split; [|split].
  - intros Hx. rewrite Hup, Hx.
    match goal with |- context [if ?c then _ else _] => destruct c end;
      reflexivity.
  - intros Hx. rewrite Hup, Hx. reflexivity.
  - intros Hfin. unfold _validate_converted_limits.
    apply andb_false_iff. right.
    destruct latest as [s|s| |s m e]; try discriminate Hfin;
      try destruct s; reflexivity.
Qed.

(** A buffer whose latest timestamp is negative, for
    [xlim_never_starts_below_zero]. *)
Lemma xlim_never_starts_below_zero_witness :
  let w := set__time [lit "-5"] (set__data [lit "1.0"] (__init__ f0 7%nat)) in
  _data w <> [] /\ last (_time w) = Some (lit "-5") /\
  xlim (state_of (_update_plot w)) = Some (lit "0", lit "-4").
Proof.
  intros w.
  assert (Hd : _data w <> []) by discriminate.
  assert (Ht : last (_time w) = Some (lit "-5")) by reflexivity.
  split; [exact Hd|]. split; [exact Ht|].
  destruct (xlim_never_starts_below_zero w (lit "-5") Hd Ht)
    as (_ & _ & Hx & _).
  rewrite Hx; vm_compute; reflexivity.
Defined.

End WindowMore.
